(** * Fleet orchestration of the rendering pipeline: leases, worker loop, autoscaler

    Shallow embedding of
    - [production-pipeline/cloud-infrastructure/cloud_worker.py]
      ([GCSJobLeaser], [GPUWorker]) and
    - [gcs-video-automations-v1-backup/cloud-infrastructure/autoscaler.py]
      ([JobQueueMonitor], [MIGController], [IntelligentAutoscaler]).

    Conventions of the embedding.
    - Python [int] is [Z]; a finite Python [float] is an exact rational
      [Q] (comparisons against the literal thresholds are the same on the
      rationals, and so is the integer part of [pending / 100.0]).
    - [datetime] is a number of microseconds ([Z]); [timedelta(seconds=s)]
      is [s * 1000000].
    - A JSON object is a [gmap string jval]; the bucket is a
      [gmap string blob] keyed by object name.
    - Code that can raise lives in a state-and-exception monad in which the
      state written before a [raise] survives it, as it does in Python.
    - [float(s)] and [int(s)] on text are the Python builtins and are
      parameters of the model. *)

From Stdlib Require Import ZArith QArith Qround String Ascii List Lia Lqa.
From Stdlib Require Import DecimalString DecimalNat.
From stdpp Require Import base gmap strings list fin_maps sorting.

Open Scope string_scope.
Open Scope Z_scope.

(** ** Python values shared by both programs *)

Definition datetime := Z.

Definition timedelta_seconds (s : Z) : Z := s * 1000000.

(** Exceptions that the modelled code can meet; every one of them is an
    [Exception], so [except Exception] catches them all. *)
Inductive exn : Type :=
| PreconditionFailed   (* create-only upload on an existing object *)
| NotFound             (* download of a missing object *)
| TransientStoreError  (* any other failure of a bucket request *)
| JSONDecodeError      (* json.loads on text that is not JSON *)
| AttributeError       (* attribute read on an object that lacks it *)
| TypeError            (* range() of a non-integer, unexpected keyword argument *)
| ValueError           (* float() / int() on unparsable text *)
| TimeoutExpired       (* subprocess.run(timeout=...) *)
| OSError.             (* the executable could not be started *)

Inductive result (A : Type) : Type :=
| Ok (a : A)
| Raise (e : exn).
Arguments Ok {A} a.
Arguments Raise {A} e.

(** JSON values that occur in the records of the pipeline. [JTime t] is
    the string [t.isoformat()]. *)
Inductive jval : Type :=
| JNull
| JStr (s : string)
| JInt (z : Z)
| JFloat (q : Q)
| JTime (t : datetime).

Abbreviation dict := (gmap string jval).

(** Content of a bucket object: text that decodes to a JSON object, or
    anything else (media, malformed text). *)
Inductive blob : Type :=
| BJson (d : dict)
| BOther.

Abbreviation bucket := (gmap string blob).

(** Result of [subprocess.run(..., capture_output=True, text=True)]. *)
Record completed : Type := Completed { returncode : Z; stdout : string }.

(** *** Text helpers: [str.strip], [str.split('\n')], [str.endswith] *)

(** [str.isspace] on the ASCII range. *)
Definition py_isspace (c : ascii) : bool :=
  let n := nat_of_ascii c in
  ((9 <=? n) && (n <=? 13) || (28 <=? n) && (n <=? 32))%nat.

Fixpoint lstrip (s : string) : string :=
  match s with
  | String c s' => if py_isspace c then lstrip s' else s
  | EmptyString => EmptyString
  end.

Definition strip (s : string) : string :=
  String.rev (lstrip (String.rev (lstrip s))).

(** [s.split(sep)] for a one-character separator: never an empty list. *)
Fixpoint split_go (sep : ascii) (cur : string) (s : string) : list string :=
  match s with
  | EmptyString => [String.rev cur]
  | String c s' =>
      if Ascii.eqb c sep then String.rev cur :: split_go sep EmptyString s'
      else split_go sep (String c cur) s'
  end.

Definition split (sep : ascii) (s : string) : list string :=
  split_go sep EmptyString s.

Definition newline : ascii := ascii_of_nat 10.

Definition endswith (s suffix : string) : bool :=
  String.prefix (String.rev suffix) (String.rev s).

Definition startswith (s pre : string) : bool := String.prefix pre s.

(** [[x.strip() for x in out.strip().split('\n') if x.strip()]] *)
Definition stripped_lines (out : string) : list string :=
  map strip (filter (fun x => strip x <> EmptyString) (split newline (strip out))).

(** [[float(x.strip()) for x in out.strip().split('\n') if x.strip()]],
    where [py_float] is the builtin [float] on text; [None] when one of
    the conversions raises [ValueError]. *)
Definition parse_utilizations (py_float : string -> option Q) (out : string)
    : option (list Q) :=
  mapM py_float (stripped_lines out).

(** Comparison of floats. *)
Definition Qltb (x y : Q) : bool := negb (Qle_bool y x).

(** [sum(xs)] and [len(xs)] on floats. *)
Definition Qsum (xs : list Q) : Q := fold_left Qplus xs 0%Q.

Definition Qlen (xs : list Q) : Q := inject_Z (Z.of_nat (length xs)).

(** [int(x)] of a float: truncation towards zero. *)
Definition Qtrunc (x : Q) : Z := Z.quot (Qnum x) (Zpos (Qden x)).

(** ** The bucket *)

(** [client.list_blobs(bucket, prefix=p)]: the names under the prefix, in
    the lexicographic order of the listing. *)
Definition list_names (b : bucket) (p : string) : list string :=
  merge_sort String.le (filter (fun n => startswith n p) (map fst (map_to_list b))).

(** ** The autoscaler *)

Module Autoscaler.

Definition JOBS_PREFIX : string := "jobs".
Definition SCALING_INTERVAL : Z := 60.
Definition SCALE_DOWN_DELAY : Z := 600.
Definition MIN_INSTANCES : Z := 1.
Definition MAX_INSTANCES : Z := 20.
Definition JOBS_PER_GPU : Z := 200.
Definition GPU_EFFICIENCY : Q := 1 # 2.

Record ScalingMetrics : Type := {
  pending_jobs : Z;
  running_jobs : Z;
  completed_jobs : Z;
  failed_jobs : Z;
  current_instances : Z;
  desired_instances : Z;
  gpu_utilization : Q;
  m_last_scale_up : option datetime;
  m_last_scale_down : option datetime
}.

(** Mutable fields of [IntelligentAutoscaler]. *)
Record autoscaler : Type := {
  last_scale_up : option datetime;
  last_scale_down : option datetime
}.

(** What the [gcloud] command line answers during one scaling cycle. The
    describe command is launched more than once in a cycle, by
    [run_scaling_cycle] first, then by [execute_scaling], then inside the
    log line of [resize_mig]; [describe_size k] is the answer to launch
    number [k], and two launches need not agree. *)
Record gcloud : Type := {
  describe_size : nat -> result completed;
  list_instances : result completed;
  ssh_nvidia_smi : string -> result completed;
  resize : Z -> result completed
}.

(** [IntelligentAutoscaler.calculate_desired_instances]; [now] is the
    value of [datetime.utcnow()]. *)
Definition calculate_desired_instances
    (self : autoscaler) (now : datetime) (pending : Z) (gpu_util : Q) : Z :=
  let base_instances :=
    Z.max 0 (Qtrunc (inject_Z pending / (inject_Z JOBS_PER_GPU * GPU_EFFICIENCY))) in
  let desired := Z.max MIN_INSTANCES (Z.min MAX_INSTANCES base_instances) in
  if (pending <? 5) && Qltb gpu_util 30 then
    match last_scale_down self with
    | None => Z.min desired 1
    | Some t =>
        if timedelta_seconds SCALE_DOWN_DELAY <? now - t
        then Z.min desired 1 else desired
    end
  else desired.

(** [IntelligentAutoscaler.should_scale]. *)
Definition should_scale (current desired : Z) (gpu_util : Q) : bool :=
  if 2 <=? Z.abs (current - desired) then true
  else if Qltb 80 gpu_util && (current <? desired) then true
  else if Qltb gpu_util 20 && (desired <? current) then true
  else false.

(** The pseudo-code of the scaling policy, as the specification words it
    (rounding up, named bounds and thresholds). *)
Definition compute_desired_spec
    (last_down : option datetime) (now : datetime) (pending : Z) (util : Q) : Z :=
  let base := Qceiling (inject_Z pending / (inject_Z JOBS_PER_GPU * GPU_EFFICIENCY)) in
  let desired := Z.max MIN_INSTANCES (Z.min MAX_INSTANCES base) in
  if (pending <? 5) && Qltb util 30 then
    match last_down with
    | None => Z.min desired MIN_INSTANCES
    | Some t =>
        if timedelta_seconds SCALE_DOWN_DELAY <? now - t
        then Z.min desired MIN_INSTANCES else desired
    end
  else desired.

(** *** [JobQueueMonitor] *)

Definition initial_counts : gmap string Z :=
  <["pending" := 0]> (<["running" := 0]> (<["completed" := 0]> (<["failed" := 0]> ∅))).

(** Body of the loop of [get_job_counts] for one listed object. A record
    that cannot be read or decoded raises inside the inner [try] and is
    skipped. *)
Definition count_one (b : bucket) (counts : gmap string Z) (name : string)
    : gmap string Z :=
  if endswith name "/status.json" then
    match b !! name with
    | Some (BJson status_data) =>
        match default (JStr "unknown") (status_data !! "status") with
        | JStr status =>
            match counts !! status with
            | Some n => <[status := n + 1]> counts
            | None => counts
            end
        | _ => counts
        end
    | _ => counts
    end
  else counts.

(** [JobQueueMonitor.get_job_counts]. *)
Definition get_job_counts (b : bucket) : gmap string Z :=
  fold_left (count_one b) (list_names b (JOBS_PREFIX ++ "/")) initial_counts.

(** [JobQueueMonitor.get_job_queue_depth]. *)
Definition get_job_queue_depth (b : bucket) : Z :=
  default 0 (get_job_counts b !! "pending").

Section Parsers.

(** The builtins [float(text)] and [int(text)]; [None] is [ValueError]. *)
Variable py_float : string -> option Q.
Variable py_int : string -> option Z.

(** *** [MIGController] *)

(** [MIGController.get_current_size], at launch number [launch] of the
    describe command. *)
Definition get_current_size (g : gcloud) (launch : nat) : Z :=
  match describe_size g launch with
  | Ok r =>
      if returncode r =? 0 then
        match py_int (strip (stdout r)) with
        | Some n => n
        | None => 0
        end
      else 0
  | Raise _ => 0
  end.

(** [MIGController.resize_mig]: the answer, and the sizes for which a
    resize command was launched. The size that its log line reads (the
    third launch of the describe command) goes into the message only. *)
Definition resize_mig (g : gcloud) (new_size : Z) : bool * list Z :=
  match resize g new_size with
  | Ok r => (returncode r =? 0, [new_size])
  | Raise _ => (false, [new_size])
  end.

(** Body of the loop over the instances in [get_gpu_utilization]: the
    accumulator is [(total_util, valid_instances)]. *)
Definition add_instance_utilization (g : gcloud) (acc : Q * Z) (instance : string)
    : Q * Z :=
  match ssh_nvidia_smi g instance with
  | Ok gpu_result =>
      if returncode gpu_result =? 0 then
        match parse_utilizations py_float (stdout gpu_result) with
        | Some [] => acc
        | Some utilizations =>
            ((fst acc + Qsum utilizations / Qlen utilizations)%Q, snd acc + 1)
        | None => acc
        end
      else acc
  | Raise _ => acc
  end.

(** [MIGController.get_gpu_utilization]. *)
Definition get_gpu_utilization (g : gcloud) : Q :=
  match list_instances g with
  | Ok r =>
      if negb (returncode r =? 0) then 0%Q
      else
        match stripped_lines (stdout r) with
        | [] => 0%Q
        | instances =>
            let '(total_util, valid_instances) :=
              fold_left (add_instance_utilization g) instances (0%Q, 0) in
            if 0 <? valid_instances
            then (total_util / inject_Z valid_instances)%Q else 0%Q
        end
  | Raise _ => 0%Q
  end.

(** *** [IntelligentAutoscaler] *)

(** [IntelligentAutoscaler.execute_scaling]: the answer, the autoscaler
    afterwards and the resize commands launched. It reads the size of the
    group again, by the second launch of the describe command. *)
Definition execute_scaling
    (self : autoscaler) (g : gcloud) (now : datetime) (desired : Z)
    : bool * autoscaler * list Z :=
  let current_size := get_current_size g 1 in
  if current_size =? desired then (true, self, [])
  else if current_size <? desired then
    let '(success, issued) := resize_mig g desired in
    (success,
     if success
     then {| last_scale_up := Some now; last_scale_down := last_scale_down self |}
     else self,
     issued)
  else
    let '(success, issued) := resize_mig g desired in
    (success,
     if success
     then {| last_scale_up := last_scale_up self; last_scale_down := Some now |}
     else self,
     issued).

(** [IntelligentAutoscaler.run_scaling_cycle]: the autoscaler afterwards,
    the metrics returned and the resize commands launched. *)
Definition run_scaling_cycle
    (self : autoscaler) (b : bucket) (g : gcloud) (now : datetime)
    : autoscaler * ScalingMetrics * list Z :=
  let job_counts := get_job_counts b in
  let pending := default 0 (job_counts !! "pending") in
  let current := get_current_size g 0 in
  let util := get_gpu_utilization g in
  let desired := calculate_desired_instances self now pending util in
  let '(self', issued) :=
    if should_scale current desired util then
      let '(_, self', issued) := execute_scaling self g now desired in (self', issued)
    else (self, []) in
  (self',
   {| pending_jobs := pending;
      running_jobs := default 0 (job_counts !! "running");
      completed_jobs := default 0 (job_counts !! "completed");
      failed_jobs := default 0 (job_counts !! "failed");
      current_instances := current;
      desired_instances := desired;
      gpu_utilization := util;
      m_last_scale_up := last_scale_up self';
      m_last_scale_down := last_scale_down self' |},
   issued).

End Parsers.

End Autoscaler.

(** ** The render worker *)

Module CloudWorker.

Definition JOBS_PREFIX : string := "jobs".
Definition FINAL_VIDEOS_PREFIX : string := "final_videos".
Definition LEASE_RENEWAL_INTERVAL : Z := 60.
Definition MAX_PARALLEL_FFMPEG : nat := 3.
Definition GPU_UTILIZATION_THRESHOLD : Q := 70.

(** The dataclass [JobInfo]. *)
Record JobInfo : Type := {
  job_id : string;
  channel : string;
  status : string;
  lease_expiry : option datetime;
  metadata : option dict
}.

Global Instance JobInfo_inhabited : Inhabited JobInfo :=
  populate {| job_id := EmptyString; channel := EmptyString;
              status := EmptyString; lease_expiry := None; metadata := None |}.

(** A [JobInfo] object is shared between the list returned by the scan,
    [job_leaser.current_job] and the argument of [render_video_job]: the
    objects live in a heap and are passed by reference. *)
Definition ref := nat.

(** One worker process: its [GCSJobLeaser], its [GPUWorker] and what it
    sees of the outside. [render_video_job] reads [self.bucket] and
    [self.client] on the [GPUWorker] object, attributes that
    [GPUWorker.__init__] does not set ([GCSJobLeaser.__init__] sets its
    own): [has_bucket] and [has_client] say whether the worker object
    carries them, bound to the leaser's handles. *)
Record proc : Type := {
  WORKER_ID : string;
  clock : datetime;                      (* datetime.utcnow() *)
  gcs : bucket;                          (* the bucket, shared with the fleet *)
  faults : list bool;                    (* do the next bucket requests fail? *)
  uploads : list string;                 (* names this process has written, latest first *)
  heap : gmap ref JobInfo;
  current_job : option ref;              (* job_leaser.current_job *)
  leaser_shutdown_event : bool;          (* job_leaser.shutdown_event *)
  shutdown_event : bool;                 (* worker.shutdown_event *)
  active_processes : list (option Z);    (* worker.active_processes: poll() of each Popen *)
  has_bucket : bool;                     (* does the worker object have an attribute bucket? *)
  has_client : bool;                     (* does the worker object have an attribute client? *)
  nvidia_smi : result completed;         (* answer of the nvidia-smi command *)
  rendered : list (string * nat)         (* units rendered: job id and index, latest first *)
}.

Definition set_clock (t : datetime) (s : proc) : proc :=
  {| WORKER_ID := WORKER_ID s; clock := t; gcs := gcs s; faults := faults s;
     uploads := uploads s; heap := heap s; current_job := current_job s;
     leaser_shutdown_event := leaser_shutdown_event s;
     shutdown_event := shutdown_event s;
     active_processes := active_processes s; has_bucket := has_bucket s;
     has_client := has_client s; nvidia_smi := nvidia_smi s;
     rendered := rendered s |}.

Definition set_gcs (b : bucket) (s : proc) : proc :=
  {| WORKER_ID := WORKER_ID s; clock := clock s; gcs := b;
     faults := faults s; uploads := uploads s; heap := heap s;
     current_job := current_job s;
     leaser_shutdown_event := leaser_shutdown_event s;
     shutdown_event := shutdown_event s;
     active_processes := active_processes s; has_bucket := has_bucket s;
     has_client := has_client s; nvidia_smi := nvidia_smi s;
     rendered := rendered s |}.

Definition set_faults (f : list bool) (s : proc) : proc :=
  {| WORKER_ID := WORKER_ID s; clock := clock s; gcs := gcs s; faults := f;
     uploads := uploads s; heap := heap s; current_job := current_job s;
     leaser_shutdown_event := leaser_shutdown_event s;
     shutdown_event := shutdown_event s;
     active_processes := active_processes s; has_bucket := has_bucket s;
     has_client := has_client s; nvidia_smi := nvidia_smi s;
     rendered := rendered s |}.

Definition set_uploads (u : list string) (s : proc) : proc :=
  {| WORKER_ID := WORKER_ID s; clock := clock s; gcs := gcs s;
     faults := faults s; uploads := u; heap := heap s;
     current_job := current_job s;
     leaser_shutdown_event := leaser_shutdown_event s;
     shutdown_event := shutdown_event s;
     active_processes := active_processes s; has_bucket := has_bucket s;
     has_client := has_client s; nvidia_smi := nvidia_smi s;
     rendered := rendered s |}.

Definition set_heap (h : gmap ref JobInfo) (s : proc) : proc :=
  {| WORKER_ID := WORKER_ID s; clock := clock s; gcs := gcs s;
     faults := faults s; uploads := uploads s; heap := h;
     current_job := current_job s;
     leaser_shutdown_event := leaser_shutdown_event s;
     shutdown_event := shutdown_event s;
     active_processes := active_processes s; has_bucket := has_bucket s;
     has_client := has_client s; nvidia_smi := nvidia_smi s;
     rendered := rendered s |}.

Definition set_current_job (j : option ref) (s : proc) : proc :=
  {| WORKER_ID := WORKER_ID s; clock := clock s; gcs := gcs s;
     faults := faults s; uploads := uploads s; heap := heap s;
     current_job := j; leaser_shutdown_event := leaser_shutdown_event s;
     shutdown_event := shutdown_event s;
     active_processes := active_processes s; has_bucket := has_bucket s;
     has_client := has_client s; nvidia_smi := nvidia_smi s;
     rendered := rendered s |}.

Definition set_leaser_shutdown_event (v : bool) (s : proc) : proc :=
  {| WORKER_ID := WORKER_ID s; clock := clock s; gcs := gcs s;
     faults := faults s; uploads := uploads s; heap := heap s;
     current_job := current_job s; leaser_shutdown_event := v;
     shutdown_event := shutdown_event s;
     active_processes := active_processes s; has_bucket := has_bucket s;
     has_client := has_client s; nvidia_smi := nvidia_smi s;
     rendered := rendered s |}.

Definition set_shutdown_event (v : bool) (s : proc) : proc :=
  {| WORKER_ID := WORKER_ID s; clock := clock s; gcs := gcs s;
     faults := faults s; uploads := uploads s; heap := heap s;
     current_job := current_job s;
     leaser_shutdown_event := leaser_shutdown_event s; shutdown_event := v;
     active_processes := active_processes s; has_bucket := has_bucket s;
     has_client := has_client s; nvidia_smi := nvidia_smi s;
     rendered := rendered s |}.

Definition set_active_processes (l : list (option Z)) (s : proc) : proc :=
  {| WORKER_ID := WORKER_ID s; clock := clock s; gcs := gcs s;
     faults := faults s; uploads := uploads s; heap := heap s;
     current_job := current_job s;
     leaser_shutdown_event := leaser_shutdown_event s;
     shutdown_event := shutdown_event s; active_processes := l;
     has_bucket := has_bucket s; has_client := has_client s;
     nvidia_smi := nvidia_smi s; rendered := rendered s |}.

Definition set_has_bucket (v : bool) (s : proc) : proc :=
  {| WORKER_ID := WORKER_ID s; clock := clock s; gcs := gcs s;
     faults := faults s; uploads := uploads s; heap := heap s;
     current_job := current_job s;
     leaser_shutdown_event := leaser_shutdown_event s;
     shutdown_event := shutdown_event s;
     active_processes := active_processes s; has_bucket := v;
     has_client := has_client s; nvidia_smi := nvidia_smi s;
     rendered := rendered s |}.

Definition set_has_client (v : bool) (s : proc) : proc :=
  {| WORKER_ID := WORKER_ID s; clock := clock s; gcs := gcs s;
     faults := faults s; uploads := uploads s; heap := heap s;
     current_job := current_job s;
     leaser_shutdown_event := leaser_shutdown_event s;
     shutdown_event := shutdown_event s;
     active_processes := active_processes s; has_bucket := has_bucket s;
     has_client := v; nvidia_smi := nvidia_smi s; rendered := rendered s |}.

Definition set_rendered (l : list (string * nat)) (s : proc) : proc :=
  {| WORKER_ID := WORKER_ID s; clock := clock s; gcs := gcs s;
     faults := faults s; uploads := uploads s; heap := heap s;
     current_job := current_job s;
     leaser_shutdown_event := leaser_shutdown_event s;
     shutdown_event := shutdown_event s;
     active_processes := active_processes s; has_bucket := has_bucket s;
     has_client := has_client s; nvidia_smi := nvidia_smi s; rendered := l |}.

(** *** Statements that may raise *)

Definition M (A : Type) : Type := proc -> result A * proc.

Definition ret {A : Type} (a : A) : M A := fun s => (Ok a, s).

Definition bind {A B : Type} (m : M A) (k : A -> M B) : M B :=
  fun s =>
    match m s with
    | (Ok a, s') => k a s'
    | (Raise e, s') => (Raise e, s')
    end.

Definition raise {A : Type} (e : exn) : M A := fun s => (Raise e, s).

(** [try: body except Exception as e: handler]. *)
Definition try_except {A : Type} (body : M A) (handler : exn -> M A) : M A :=
  fun s =>
    match body s with
    | (Ok a, s') => (Ok a, s')
    | (Raise e, s') => handler e s'
    end.

Definition get : M proc := fun s => (Ok s, s).

Definition modify (f : proc -> proc) : M unit := fun s => (Ok tt, f s).

Global Instance M_ret : MRet M := @ret.
Global Instance M_bind : MBind M := fun A B k m => bind m k.

(** [datetime.utcnow()] and [time.sleep(seconds)]. *)
Definition utcnow : M datetime := fun s => (Ok (clock s), s).

Definition sleep (seconds : Z) : M unit :=
  modify (fun s => set_clock (clock s + timedelta_seconds seconds) s).

(** *** Bucket requests

    The calls of the storage library that the worker makes:
    create-if-absent ([if_generation_match=0]), unconditional overwrite,
    read, list by prefix, and delete. Any request may also fail
    transiently; the process state says whether the coming ones do. *)

Definition request : M unit :=
  fun s =>
    match faults s with
    | true :: f => (Raise TransientStoreError, set_faults f s)
    | false :: f => (Ok tt, set_faults f s)
    | [] => (Ok tt, s)
    end.

(** [blob.upload_from_string(json.dumps(d))], with [if_generation_match=0]
    when [create_only]. *)
Definition upload_from_string (name : string) (content : blob) (create_only : bool)
    : M unit :=
  request ;;
  s ← get;
  if create_only && bool_decide (is_Some (gcs s !! name))
  then raise PreconditionFailed
  else modify (fun s => set_uploads (name :: uploads s) (set_gcs (<[name := content]> (gcs s)) s)).

(** [blob.delete(...)]. The library's [Blob.delete] has no keyword
    [ignore_generation]: a call that passes one raises [TypeError] when it
    is made, before any request. Without it the object is deleted, and a
    missing object is [NotFound]. *)
Definition delete_blob (name : string) (ignore_generation : bool) : M unit :=
  if ignore_generation then raise TypeError
  else
    request ;;
    s ← get;
    match gcs s !! name with
    | Some _ => modify (fun s => set_gcs (delete name (gcs s)) s)
    | None => raise NotFound
    end.

Definition download_as_text (name : string) : M blob :=
  request ;;
  s ← get;
  match gcs s !! name with
  | Some content => ret content
  | None => raise NotFound
  end.

Definition json_loads (content : blob) : M dict :=
  match content with
  | BJson d => ret d
  | BOther => raise JSONDecodeError
  end.

Definition list_blobs (pre : string) : M (list string) :=
  request ;;
  s ← get;
  ret (list_names (gcs s) pre).

(** *** Objects *)

Definition new_job (j : JobInfo) : M ref :=
  fun s =>
    let r := fresh (dom (heap s)) in
    (Ok r, set_heap (<[r := j]> (heap s)) s).

Definition read_job (r : ref) : M JobInfo := fun s => (Ok (heap s !!! r), s).

Definition write_job (r : ref) (j : JobInfo) : M unit :=
  modify (fun s => set_heap (<[r := j]> (heap s)) s).

Definition with_status (v : string) (j : JobInfo) : JobInfo :=
  {| job_id := job_id j; channel := channel j; status := v;
     lease_expiry := lease_expiry j; metadata := metadata j |}.

Definition with_lease_expiry (t : option datetime) (j : JobInfo) : JobInfo :=
  {| job_id := job_id j; channel := channel j; status := status j;
     lease_expiry := t; metadata := metadata j |}.

Definition with_metadata (d : option dict) (j : JobInfo) : JobInfo :=
  {| job_id := job_id j; channel := channel j; status := status j;
     lease_expiry := lease_expiry j; metadata := d |}.

(** [status_data = job.metadata or {}; status_data.update(changes)]: the
    updated dictionary. When [job.metadata] is a non-empty dictionary the
    update happens in place and the job sees it; otherwise it lands in a
    fresh dictionary. [changes ∪ d] keeps the entries of [changes]. *)
Definition update_status_data (r : ref) (changes : dict) : M dict :=
  job ← read_job r;
  match metadata job with
  | Some d =>
      if Nat.eqb (size d) 0 then ret changes
      else write_job r (with_metadata (Some (changes ∪ d)) job) ;; ret (changes ∪ d)
  | None => ret changes
  end.

Definition job_dir_of (job : JobInfo) : string :=
  JOBS_PREFIX ++ "/" ++ channel job ++ "/" ++ job_id job.

Definition lease_path (job : JobInfo) : string := job_dir_of job ++ "/lease.lock".

Definition status_path (job : JobInfo) : string := job_dir_of job ++ "/status.json".

Fixpoint foldM {A B : Type} (f : B -> A -> M B) (acc : B) (l : list A) : M B :=
  match l with
  | [] => ret acc
  | x :: l' => acc' ← f acc x; foldM f acc' l'
  end.

(** *** [GCSJobLeaser] *)

(** Body of the loop of [scan_for_jobs] for one listed object; a record
    that cannot be read or decoded is skipped by the inner [try]. *)
Definition scan_one (jobs : list ref) (name : string) : M (list ref) :=
  if endswith name "/status.json" then
    let parts := split "/" name in
    if (4 <=? length parts)%nat then
      try_except
        (content ← download_as_text name;
         status_data ← json_loads content;
         match status_data !! "status" with
         | Some (JStr st) =>
             if String.eqb st "pending" then
               r ← new_job {| job_id := nth 2 parts EmptyString;
                              channel := nth 1 parts EmptyString;
                              status := "pending"; lease_expiry := None;
                              metadata := Some status_data |};
               ret (jobs ++ [r])%list
             else ret jobs
         | _ => ret jobs
         end)
        (fun _ => ret jobs)
    else ret jobs
  else ret jobs.

(** [GCSJobLeaser.scan_for_jobs]. Only the listing can raise out of the
    loop, before any job was collected. *)
Definition scan_for_jobs : M (list ref) :=
  try_except
    (blobs ← list_blobs (JOBS_PREFIX ++ "/");
     foldM scan_one [] blobs)
    (fun _ => ret []).

Definition lease_data (worker : string) (claimed_at now : datetime) : dict :=
  <["worker_id" := JStr worker]>
    (<["claimed_at" := JTime claimed_at]>
       (<["expires_at" := JTime (now + timedelta_seconds (LEASE_RENEWAL_INTERVAL * 2))]> ∅)).

(** First half of [claim_job]: the create-only upload of the lease. *)
Definition claim_lease (r : ref) : M unit :=
  job ← read_job r;
  s ← get;
  now ← utcnow;
  upload_from_string (lease_path job) (BJson (lease_data (WORKER_ID s) now now)) true.

(** Second half of [claim_job]: the status record and the leaser's own
    bookkeeping. *)
Definition claim_status (r : ref) : M unit :=
  job ← read_job r;
  s ← get;
  now ← utcnow;
  status_data ← update_status_data r
    (<["status" := JStr "running"]>
       (<["worker_id" := JStr (WORKER_ID s)]> (<["started_at" := JTime now]> ∅)));
  upload_from_string (status_path job) (BJson status_data) false ;;
  job ← read_job r;
  write_job r
    (with_lease_expiry (Some (now + timedelta_seconds (LEASE_RENEWAL_INTERVAL * 2)))
       (with_status "running" job)) ;;
  modify (set_current_job (Some r)).

(** [GCSJobLeaser.claim_job]. *)
Definition claim_job (r : ref) : M bool :=
  try_except
    (claim_lease r ;; claim_status r ;; ret true)
    (fun _ => ret false).

(** [GCSJobLeaser.renew_lease]. *)
Definition renew_lease : M bool :=
  s ← get;
  match current_job s with
  | None => ret false
  | Some r =>
      try_except
        (job ← read_job r;
         claimed_at ← match lease_expiry job with
                      | Some t => ret t
                      | None => raise AttributeError
                      end;
         now ← utcnow;
         upload_from_string (lease_path job)
           (BJson (lease_data (WORKER_ID s) claimed_at now)) false ;;
         s' ← get;
         match current_job s' with
         | Some r' =>
             job' ← read_job r';
             write_job r'
               (with_lease_expiry
                  (Some (now + timedelta_seconds (LEASE_RENEWAL_INTERVAL * 2))) job') ;;
             ret true
         | None => raise AttributeError
         end)
        (fun _ => ret false)
  end.

(** [GCSJobLeaser.release_job]. Its first statement after the path is
    [lease_blob.delete(ignore_generation=True)]. *)
Definition release_job : M unit :=
  s ← get;
  match current_job s with
  | None => ret tt
  | Some r =>
      try_except
        (job ← read_job r;
         delete_blob (lease_path job) true ;;
         status_data ← update_status_data r
           (<["status" := JStr "pending"]>
              (<["worker_id" := JNull]> (<["started_at" := JNull]> ∅)));
         upload_from_string (status_path job) (BJson status_data) false ;;
         modify (set_current_job None))
        (fun _ => ret tt)
  end.

(** One turn of [renewal_loop], the body of the thread started by
    [start_lease_renewal]. *)
Definition renewal_turn : M unit :=
  s ← get;
  match current_job s return M unit with
  | Some _ =>
      renewed ← renew_lease;
      if renewed : bool then ret tt else release_job
  | None => ret tt
  end ;;
  sleep LEASE_RENEWAL_INTERVAL.

(** [renewal_loop] for at most [turns] turns: it goes on until the
    leaser's shutdown event is set. *)
Fixpoint renewal_loop (turns : nat) : M unit :=
  match turns with
  | O => ret tt
  | S n =>
      s ← get;
      if leaser_shutdown_event s then ret tt
      else renewal_turn ;; renewal_loop n
  end.

(** [GCSJobLeaser.shutdown]. *)
Definition shutdown : M unit :=
  modify (set_leaser_shutdown_event true) ;;
  s ← get;
  match current_job s with
  | Some _ => release_job
  | None => ret tt
  end.

(** *** [GPUWorker] *)

Section Parsers.

(** The builtin [float(text)]; [None] is [ValueError]. *)
Variable py_float : string -> option Q.

(** [GPUWorker._signal_handler]. *)
Definition signal_handler : M unit := modify (set_shutdown_event true).

(** [GPUWorker.get_gpu_utilization]. The [try] block either returns a
    value, falls through (non-zero return code) or raises; the last two
    end on the final [return 0.0]. *)
Definition get_gpu_utilization : M Q :=
  returned ← try_except
    (s ← get;
     result ← match nvidia_smi s with
              | Ok r => ret r
              | Raise e => raise e
              end;
     if returncode result =? 0 then
       utilizations ← match parse_utilizations py_float (stdout result) with
                      | Some l => ret l
                      | None => raise ValueError
                      end;
       match utilizations with
       | [] => ret (Some 0%Q)
       | _ => ret (Some (Qsum utilizations / Qlen utilizations)%Q)
       end
     else ret None)
    (fun _ => ret None);
  match returned with
  | Some v => ret v
  | None => ret 0%Q
  end.

(** [self.bucket] and [self.client] read on the [GPUWorker] object. *)
Definition self_bucket : M unit :=
  s ← get;
  if has_bucket s then ret tt else raise AttributeError.

Definition self_client : M unit :=
  s ← get;
  if has_client s then ret tt else raise AttributeError.

(** [GPUWorker.can_add_parallel_process]. *)
Definition can_add_parallel_process : M bool :=
  gpu_util ← get_gpu_utilization;
  s ← get;
  let active_count :=
    length (filter (fun p : option Z => p = None) (active_processes s)) in
  ret (Qltb gpu_util GPU_UTILIZATION_THRESHOLD && (active_count <? MAX_PARALLEL_FFMPEG)%nat).

(** [GPUWorker.cleanup_completed_processes]. *)
Definition cleanup_completed_processes : M unit :=
  modify (fun s =>
    set_active_processes
      (filter (fun p : option Z => p = None) (active_processes s)) s).

(** [f"{i:03d}"]: decimal, padded with zeros to three digits. *)
Fixpoint zero_pad (k : nat) (d : Decimal.uint) : Decimal.uint :=
  match k with
  | O => d
  | S k' => Decimal.D0 (zero_pad k' d)
  end.

Definition format_03d (i : nat) : string :=
  let d := Nat.to_uint i in
  NilEmpty.string_of_uint (zero_pad (3 - Decimal.nb_digits d) d).

Definition clip_name (i : nat) : string := "clip_" ++ format_03d i ++ ".mp4".

(** [blob.name.split("/")[-1]] *)
Definition last_component (name : string) : string := List.last (split "/" name) EmptyString.

(** The clips already in the bucket for a job directory. *)
Definition existing_clips_of (names : list string) : list string :=
  map last_component (filter (fun n => endswith n ".mp4" = true) names).

Definition is_existing (name : string) (existing_clips : list string) : bool :=
  existsb (String.eqb name) existing_clips.

Definition progress_data (i : nat) (total_clips : Z) (now : datetime) : dict :=
  <["completed_clips" := JInt (Z.of_nat i + 1)]>
    (<["total_clips" := JInt total_clips]> (<["last_updated" := JTime now]> ∅)).

(** The loop [for i in range(total_clips)] of [render_video_job] over the
    indices still to visit. [false] is the [return False] taken inside the
    loop; [true] means the loop ran to its end. Rendering a clip (the
    simulated [time.sleep(2)]) is recorded in [rendered]. *)
Fixpoint render_clips (job_id : string) (job_dir : string)
    (existing_clips : list string) (total_clips : Z) (indices : list nat) : M bool :=
  match indices with
  | [] => ret true
  | i :: rest =>
      s ← get;
      if shutdown_event s then ret false
      else
        (if is_existing (clip_name i) existing_clips then ret tt
         else
           modify (fun s => set_rendered ((job_id, i) :: rendered s) s) ;;
           sleep 2 ;;
           self_bucket ;;
           now ← utcnow;
           upload_from_string (job_dir ++ "/progress.json")
             (BJson (progress_data i total_clips now)) false) ;;
        render_clips job_id job_dir existing_clips total_clips rest
  end.

(** [str(e)] *)
Definition exn_message (e : exn) : string :=
  match e with
  | PreconditionFailed => "PreconditionFailed"
  | NotFound => "NotFound"
  | TransientStoreError => "TransientStoreError"
  | JSONDecodeError => "JSONDecodeError"
  | AttributeError => "AttributeError"
  | TypeError => "TypeError"
  | ValueError => "ValueError"
  | TimeoutExpired => "TimeoutExpired"
  | OSError => "OSError"
  end.

Definition manifest_data (job : JobInfo) (worker : string) (now : datetime)
    (total_clips : Z) (gpu_util : Q) : dict :=
  <["job_id" := JStr (job_id job)]>
    (<["channel" := JStr (channel job)]>
       (<["completed_at" := JTime now]>
          (<["total_clips" := JInt total_clips]>
             (<["worker_id" := JStr worker]>
                (<["gpu_utilization" := JFloat gpu_util]>
                   (<["processing_time" := JStr "00:05:00"]> ∅)))))).

(** [GPUWorker.render_video_job]. Every bucket access goes through
    [self.bucket] or [self.client]; on a worker object without these
    attributes the first access raises [AttributeError], the handler's own
    access raises it again and is silenced, and the answer is [False]. *)
Definition render_video_job (r : ref) : M bool :=
  try_except
    (job ← read_job r;
     let job_dir := job_dir_of job in
     self_bucket ;;
     content ← download_as_text (job_dir ++ "/config.json");
     config ← json_loads content;
     self_bucket ;;
     names ← try_except
               (self_client ;; self_bucket ;; list_blobs (job_dir ++ "/clips/"))
               (fun e => match e with NotFound => ret [] | _ => raise e end);
     let existing_clips := existing_clips_of names in
     total_clips ← match default (JInt 1) (config !! "total_questions") with
                   | JInt n => ret n
                   | _ => raise TypeError
                   end;
     finished ← render_clips (job_id job) job_dir existing_clips total_clips
                  (seq 0 (Z.to_nat total_clips));
     if finished : bool then
       sleep 5 ;;
       let final_video_path :=
         FINAL_VIDEOS_PREFIX ++ "/" ++ channel job ++ "/" ++ job_id job ++ ".mp4" in
       now ← utcnow;
       s ← get;
       gpu_util ← get_gpu_utilization;
       self_bucket ;;
       upload_from_string (job_dir ++ "/_MANIFEST.json")
         (BJson (manifest_data job (WORKER_ID s) now total_clips gpu_util)) false ;;
       self_bucket ;;
       status_data ← update_status_data r
         (<["status" := JStr "completed"]>
            (<["completed_at" := JTime now]>
               (<["final_video_path" := JStr final_video_path]> ∅)));
       upload_from_string (job_dir ++ "/status.json") (BJson status_data) false ;;
       ret true
     else ret false)
    (fun e =>
       try_except
         (job ← read_job r;
          self_bucket ;;
          now ← utcnow;
          status_data ← update_status_data r
            (<["status" := JStr "failed"]>
               (<["error" := JStr (exn_message e)]> (<["failed_at" := JTime now]> ∅)));
          upload_from_string (job_dir_of job ++ "/status.json") (BJson status_data) false)
         (fun _ => ret tt) ;;
       ret false).

(** [for job in available_jobs: if claim_job(job): break] *)
Fixpoint claim_first (available_jobs : list ref) : M unit :=
  match available_jobs with
  | [] => ret tt
  | job :: rest =>
      claimed ← claim_job job;
      if claimed : bool then ret tt else claim_first rest
  end.

(** One turn of the [while] loop of [GPUWorker.run]; [false] is [break]. *)
Definition run_turn : M bool :=
  try_except
    (cleanup_completed_processes ;;
     s ← get;
     match current_job s return M unit with
     | None => available_jobs ← scan_for_jobs; claim_first available_jobs
     | Some _ => ret tt
     end ;;
     s ← get;
     match current_job s with
     | Some r =>
         completed ← render_video_job r;
         if completed : bool then release_job ;; ret true else ret false
     | None => sleep 10 ;; ret true
     end)
    (fun _ => sleep 5 ;; ret true).

(** The [while not self.shutdown_event.is_set()] loop of [GPUWorker.run],
    for at most [turns] turns; [true] when the loop was left, [false] when
    it is still going after that many turns. *)
Fixpoint run_loop (turns : nat) : M bool :=
  match turns with
  | O => s ← get; ret (shutdown_event s)
  | S n =>
      s ← get;
      if shutdown_event s then ret true
      else
        continue ← run_turn;
        if continue : bool then run_loop n else ret true
  end.

(** [GPUWorker.run], observed for at most [turns] turns of its loop: once
    the loop is left the leaser is shut down. The renewal thread that
    [run] starts first executes [renewal_turn] beside it. *)
Definition run (turns : nat) : M unit :=
  left ← run_loop turns;
  if left : bool then shutdown else ret tt.

(** *** The two threads of a worker process

    [run] starts the renewal thread and then loops, and the two go on
    side by side. A step of the process is one turn of the loop of either
    thread. *)





End Parsers.

(** *** Several workers claiming at once

    Each worker executes [claim_job] in two bucket requests; requests of
    different workers interleave in any order. A racer is a worker's
    process state, the job object it is claiming and where it stands. *)

Inductive claim_pc : Type :=
| AtStart
| LeaseWritten
| Returned (answer : bool).

(** The next bucket request of [claim_job] and what follows it up to the
    next request or the [return]. *)
Definition claim_step (r : ref) (pc : claim_pc) : M claim_pc :=
  match pc with
  | AtStart =>
      try_except (claim_lease r ;; ret LeaseWritten) (fun _ => ret (Returned false))
  | LeaseWritten =>
      try_except (claim_status r ;; ret (Returned true)) (fun _ => ret (Returned false))
  | Returned b => ret (Returned b)
  end.

Record racer : Type := {
  r_proc : proc;
  r_job : ref;
  r_pc : claim_pc
}.

Record race : Type := {
  shared : bucket;
  racers : list racer
}.

(** Worker [i] performs its next step on the shared bucket. *)
Definition race_step (st : race) (i : nat) : race :=
  match racers st !! i with
  | Some w =>
      let '(res, s') := claim_step (r_job w) (r_pc w) (set_gcs (shared st) (r_proc w)) in
      let pc' := match res with Ok pc' => pc' | Raise _ => Returned false end in
      {| shared := gcs s';
         racers := <[i := {| r_proc := s'; r_job := r_job w; r_pc := pc' |}]> (racers st) |}
  | None => st
  end.

Definition race_run (schedule : list nat) (st : race) : race :=
  fold_left race_step schedule st.

(** The job object a racer is claiming. *)
Definition job_of (w : racer) : JobInfo := heap (r_proc w) !!! r_job w.

(** The racer's job object names the given job. *)
Definition claims (job : JobInfo) (w : racer) : Prop :=
  channel (job_of w) = channel job /\ job_id (job_of w) = job_id job.

(** A racer about to call [claim_job] on the job, whose bucket requests
    will not fail transiently. *)
Definition ready (job : JobInfo) (w : racer) : Prop :=
  r_pc w = AtStart /\ faults (r_proc w) = [] /\ claims job w.

Definition pc_rank (pc : claim_pc) : nat :=
  match pc with
  | AtStart => 0
  | LeaseWritten => 1
  | Returned _ => 2
  end.

(** How many steps the schedule gives to worker [i]. *)
Definition turns_of (i : nat) (schedule : list nat) : nat :=
  length (filter (fun j => j = i) schedule).

(** Racer [w], number [j], has not moved yet. *)
Definition waiting (ws : list racer) (j : nat) (w : racer) : Prop :=
  ws !! j = Some w /\ r_pc w = AtStart.

(** Racer [w], number [j], lost: it met the lease, got [False], and its
    process is as it began but for the bucket it has seen, which holds
    the lease. *)
Definition lost (job : JobInfo) (ws : list racer) (j : nat) (w : racer) : Prop :=
  exists w0, ws !! j = Some w0
    /\ r_job w = r_job w0
    /\ r_pc w = Returned false
    /\ r_proc w = set_gcs (gcs (r_proc w)) (r_proc w0)
    /\ is_Some (gcs (r_proc w) !! lease_path job).

(** Racer [wk], number [k], created the lease, on a bucket [before] that
    had none, and nobody has written since: it has taken the first step of
    its [claim_job] and written the lease, or it has returned [True] from
    the whole of it and written the status record after the lease. *)
Definition holds_lease (job : JobInfo) (ws : list racer) (st : race)
    (k : nat) (wk : racer) : Prop :=
  exists w0 before, ws !! k = Some w0
    /\ r_job wk = r_job w0
    /\ before !! lease_path job = None
    /\ shared st = gcs (r_proc wk)
    /\ ((r_pc wk = LeaseWritten
         /\ claim_step (r_job w0) AtStart (set_gcs before (r_proc w0))
            = (Ok LeaseWritten, r_proc wk)
         /\ uploads (r_proc wk) = lease_path job :: uploads (r_proc w0))
        \/ (r_pc wk = Returned true
            /\ claim_job (r_job w0) (set_gcs before (r_proc w0)) = (Ok true, r_proc wk)
            /\ uploads (r_proc wk)
               = status_path job :: lease_path job :: uploads (r_proc w0))).

(** What every reachable state of a race for [job] satisfies when no
    request fails: either the lease is free and nobody has moved, or the
    lease exists, one racer wrote it and is on its way to [True], and all
    the others are still at the start or have lost. *)
Record race_inv (job : JobInfo) (ws : list racer) (st : race) : Prop := {
  inv_length : length (racers st) = length ws;
  inv_each : forall j w, racers st !! j = Some w ->
      faults (r_proc w) = [] /\ claims job w /\ exists w0, ws !! j = Some w0;
  inv_cases :
    (shared st !! lease_path job = None
     /\ forall j w, racers st !! j = Some w -> waiting ws j w)
    \/ (is_Some (shared st !! lease_path job)
        /\ exists k wk, racers st !! k = Some wk
           /\ holds_lease job ws st k wk
           /\ forall j w, j <> k -> racers st !! j = Some w ->
                waiting ws j w \/ lost job ws j w)
}.

(** An entry of a JSON record stored in the bucket. *)
Definition json_field (b : bucket) (path key : string) : option jval :=
  match b !! path with
  | Some (BJson d) => d !! key
  | _ => None
  end.

End CloudWorker.
(** ** Inputs used in the scenarios below *)

(** A reader of unsigned decimal numerals, standing for [int(text)] on the
    command outputs of the scenarios; anything else is a [ValueError]. *)
Definition decimal_int (s : string) : option Z :=
  match s with
  | EmptyString => None
  | _ => option_map (fun d => Z.of_nat (Nat.of_uint d)) (NilEmpty.uint_of_string s)
  end.

(** The same numerals read by [float(text)]. *)
Definition decimal_float (s : string) : option Q :=
  option_map inject_Z (decimal_int s).

(** A fleet of five instances, all nearly idle, that accepts resizes. *)
Definition idle_fleet_of_five : Autoscaler.gcloud :=
  {| Autoscaler.describe_size := fun _ => Ok (Completed 0 "5");
     Autoscaler.list_instances := Ok (Completed 0 "gpu-video-workers-a1");
     Autoscaler.ssh_nvidia_smi := fun _ => Ok (Completed 0 "5");
     Autoscaler.resize := fun _ => Ok (Completed 0 EmptyString) |}.

(** A fleet whose every command fails: the listing times out. *)
Definition unreachable_fleet : Autoscaler.gcloud :=
  {| Autoscaler.describe_size := fun _ => Raise TimeoutExpired;
     Autoscaler.list_instances := Raise TimeoutExpired;
     Autoscaler.ssh_nvidia_smi := fun _ => Raise TimeoutExpired;
     Autoscaler.resize := fun _ => Raise TimeoutExpired |}.

(** An autoscaler that scaled down ten seconds before [now = 1000 s]. *)
Definition scaled_down_10s_ago : Autoscaler.autoscaler :=
  {| Autoscaler.last_scale_up := None;
     Autoscaler.last_scale_down := Some (timedelta_seconds 990) |}.

(** ** Telemetry outages *)

(** A command that did not deliver: it raised (could not be started,
    timed out) or exited with a non-zero code. *)
Definition command_failed (o : result completed) : Prop :=
  match o with
  | Raise _ => True
  | Ok r => returncode r <> 0
  end.

(** An [nvidia-smi] answer from which no utilization can be read: the
    command failed, printed text that [float] rejects, or printed nothing. *)
Definition reading_failed (py_float : string -> option Q) (o : result completed) : Prop :=
  match o with
  | Raise _ => True
  | Ok r =>
      returncode r <> 0
      \/ parse_utilizations py_float (stdout r) = None
      \/ stripped_lines (stdout r) = []
  end.

(** The autoscaler cannot read the fleet: the instance listing fails or
    finds no instance, or no instance gives a reading. *)
Definition fleet_telemetry_down (py_float : string -> option Q) (g : Autoscaler.gcloud)
    : Prop :=
  command_failed (Autoscaler.list_instances g)
  \/ (exists r, Autoscaler.list_instances g = Ok r /\ stripped_lines (stdout r) = [])
  \/ (forall instance, reading_failed py_float (Autoscaler.ssh_nvidia_smi g instance)).

(** The worker cannot read its own GPUs. *)
Definition worker_telemetry_down (py_float : string -> option Q) (s : CloudWorker.proc)
    : Prop :=
  reading_failed py_float (CloudWorker.nvidia_smi s).

(** ** Worker scenarios *)

Section WorkerScenarios.

Import CloudWorker.

(** A bucket holding one pending job of three clips. *)
Definition one_pending_job : bucket :=
  <["jobs/news/j1/status.json" := BJson (<["status" := JStr "pending"]> ∅)]>
    (<["jobs/news/j1/config.json" := BJson (<["total_questions" := JInt 3]> ∅)]> ∅).

(** A job of five clips whose first three clips are already stored. *)
Definition resumed_job : bucket :=
  <["jobs/news/j1/status.json" := BJson (<["status" := JStr "pending"]> ∅)]>
    (<["jobs/news/j1/config.json" := BJson (<["total_questions" := JInt 5]> ∅)]>
       (<["jobs/news/j1/clips/clip_000.mp4" := BOther]>
          (<["jobs/news/j1/clips/clip_001.mp4" := BOther]>
             (<["jobs/news/j1/clips/clip_002.mp4" := BOther]> ∅)))).

(** A worker process as [main] builds it, at time [t] on bucket [b];
    [nvidia-smi] reports [smi] and [running] render processes are alive. *)
Definition started_with (id : string) (t : datetime) (b : bucket)
    (smi : result completed) (running : list (option Z)) : proc :=
  {| WORKER_ID := id; clock := t; gcs := b; faults := []; uploads := [];
     heap := ∅; current_job := None; leaser_shutdown_event := false;
     shutdown_event := false; active_processes := running;
     has_bucket := false; has_client := false;
     nvidia_smi := smi; rendered := [] |}.

(** The worker object once it has been given the [bucket] and [client]
    attributes that [render_video_job] reads, bound to the leaser's. *)
Definition with_handles (s : proc) : proc :=
  set_has_client true (set_has_bucket true s).

Definition started (id : string) (t : datetime) (b : bucket) : proc :=
  started_with id t b (Ok (Completed 0 "45")) [].

(** The worker after its scan of the bucket: the job object of [j1] is
    reference [0]. *)
Definition scanned (id : string) (t : datetime) (b : bucket) : proc :=
  snd (scan_for_jobs (started id t b)).

(** Worker A has claimed [j1] at time 0. *)
Definition holder : proc := snd (claim_job 0%nat (scanned "worker-a" 0 one_pending_job)).

(** Worker B scanned while [j1] was pending and tries its claim 1000
    seconds later, on the bucket as worker A left it. *)
Definition contender : proc :=
  set_clock (timedelta_seconds 1000)
    (set_gcs (gcs holder) (scanned "worker-b" 0 one_pending_job)).

(** Three workers that scanned the pending job, with clocks that differ. *)
Definition three_racers : list racer :=
  [ {| r_proc := scanned "worker-a" 0 one_pending_job; r_job := 0%nat; r_pc := AtStart |};
    {| r_proc := scanned "worker-b" 5 one_pending_job; r_job := 0%nat; r_pc := AtStart |};
    {| r_proc := scanned "worker-c" 7 one_pending_job; r_job := 0%nat; r_pc := AtStart |} ].

(** The same three workers when the second bucket request of worker B,
    the status upload of its claim, fails. *)
Definition three_racers_one_failing : list racer :=
  [ {| r_proc := scanned "worker-a" 0 one_pending_job; r_job := 0%nat; r_pc := AtStart |};
    {| r_proc := set_faults [false; true] (scanned "worker-b" 5 one_pending_job);
       r_job := 0%nat; r_pc := AtStart |};
    {| r_proc := scanned "worker-c" 7 one_pending_job; r_job := 0%nat; r_pc := AtStart |} ].

Definition job_j1 : JobInfo :=
  {| job_id := "j1"; channel := "news"; status := "pending";
     lease_expiry := None; metadata := None |}.


(** A worker whose [nvidia-smi] cannot be started. *)
Definition blind_worker : proc :=
  started_with "worker-a" 0 one_pending_job (Raise OSError) [None].

End WorkerScenarios.


(** * Further definitions: the autoscaler's loop, what the scan collects,
    what the leaser leaves alone *)

Module AutoscalerLoop.
Import Autoscaler.

(** The describe command gives no size: it failed or printed something
    [int] rejects. *)
Definition no_size (py_int : string -> option Z) (o : result completed) : Prop :=
  match o with
  | Raise _ => True
  | Ok r => returncode r <> 0 \/ py_int (strip (stdout r)) = None
  end.

(** Every launch of the describe command in the cycle fails that way. *)
Definition size_unknown (py_int : string -> option Z) (g : gcloud) : Prop :=
  forall launch, no_size py_int (describe_size g launch).

(** The status under which [get_job_counts] files a listed object: the
    ["status"] string of a readable [status.json] record, ["unknown"] when
    the record has no such key; nothing for any other object. *)
Definition counted_status (b : bucket) (name : string) : option string :=
  if endswith name "/status.json" then
    match b !! name with
    | Some (BJson status_data) =>
        match default (JStr "unknown") (status_data !! "status") with
        | JStr status => Some status
        | _ => None
        end
    | _ => None
    end
  else None.

Definition records_with (b : bucket) (status : string) : list string :=
  filter (fun name => counted_status b name = Some status)
    (list_names b (JOBS_PREFIX ++ "/")).

Definition counted_statuses : list string :=
  ["pending"; "running"; "completed"; "failed"].

(** An entry of [self.scaling_history]. *)
Record history_entry : Type := {
  h_timestamp : datetime;
  h_pending_jobs : Z;
  h_current_instances : Z;
  h_desired_instances : Z;
  h_gpu_utilization : Q
}.

Definition entry_of (now : datetime) (m : ScalingMetrics) : history_entry :=
  {| h_timestamp := now;
     h_pending_jobs := pending_jobs m;
     h_current_instances := current_instances m;
     h_desired_instances := desired_instances m;
     h_gpu_utilization := gpu_utilization m |}.

(** [l[-n:]] for [n > 0]: the last [n] elements, all of them when there
    are fewer. *)
Definition last_n {A : Type} (n : nat) (l : list A) : list A :=
  drop (length l - n) l.

(** The bookkeeping of [run_continuous] after a cycle: append, then keep
    the last 1000 entries. *)
Definition record_history (history : list history_entry) (e : history_entry)
    : list history_entry :=
  let history := (history ++ [e])%list in
  if (1000 <? length history)%nat then last_n 1000 history else history.

(** What one cycle of [run_continuous] meets: the bucket, the answers of
    [gcloud] and the clock. *)
Record cycle_env : Type := { c_bucket : bucket; c_gcloud : gcloud; c_now : datetime }.

Section Parsers.
Variable py_float : string -> option Q.
Variable py_int : string -> option Z.

(** The [while True] loop of [IntelligentAutoscaler.run_continuous] over
    the cycles it gets to run: the autoscaler, its history and all the
    resize commands launched. *)
Fixpoint run_continuous (cycles : list cycle_env) (self : autoscaler)
    (history : list history_entry) : autoscaler * list history_entry * list Z :=
  match cycles with
  | [] => (self, history, [])
  | c :: rest =>
      let '(self', metrics, issued) :=
        run_scaling_cycle py_float py_int self (c_bucket c) (c_gcloud c) (c_now c) in
      let '(self'', history', issued') :=
        run_continuous rest self' (record_history history (entry_of (c_now c) metrics)) in
      (self'', history', (issued ++ issued')%list)
  end.

(** The metrics of each cycle of the same run, in order. *)
Fixpoint cycle_entries (cycles : list cycle_env) (self : autoscaler) : list history_entry :=
  match cycles with
  | [] => []
  | c :: rest =>
      let '(self', metrics, _) :=
        run_scaling_cycle py_float py_int self (c_bucket c) (c_gcloud c) (c_now c) in
      entry_of (c_now c) metrics :: cycle_entries rest self'
  end.
End Parsers.
End AutoscalerLoop.

Module WorkerFrames.
Import CloudWorker.

(** The statement [m] leaves the part [view] of the process as it was,
    whether it returns or raises. *)
Definition keeps {A V : Type} (view : proc -> V) (m : M A) : Prop :=
  forall s, view (snd (m s)) = view s.

(** What the leaser never touches: the worker's own attributes and the
    record of rendered units. *)
Definition worker_side (s : proc) : list (string * nat) * bool * bool * bool :=
  (rendered s, has_bucket s, has_client s, shutdown_event s).

End WorkerFrames.

Module WorkerScan.
Import CloudWorker.

(** The [JobInfo] that [scan_for_jobs] builds for a status record. *)
Definition job_of_name (name : string) (status_data : dict) : JobInfo :=
  {| job_id := nth 2 (split "/" name) EmptyString;
     channel := nth 1 (split "/" name) EmptyString;
     status := "pending"; lease_expiry := None;
     metadata := Some status_data |}.

(** The content of a listed object when it is a status record at depth
    four or more that decodes and says pending. *)
Definition pending_record (b : bucket) (name : string) : option dict :=
  if endswith name "/status.json" && (4 <=? length (split "/" name))%nat then
    match b !! name with
    | Some (BJson d) =>
        match d !! "status" with
        | Some (JStr st) => if String.eqb st "pending" then Some d else None
        | _ => None
        end
    | _ => None
    end
  else None.

Definition pending_jobs_of (b : bucket) (names : list string) : list JobInfo :=
  omap (fun name => job_of_name name <$> pending_record b name) names.

End WorkerScan.

Module WorkerErrors.
Import CloudWorker.
(** What reading and decoding [config.json] raises, if anything. *)
Definition config_error (content : option blob) : option exn :=
  match content with
  | None => Some NotFound
  | Some BOther => Some JSONDecodeError
  | Some (BJson _) => None
  end.
End WorkerErrors.

Module WorkerEncoder.
(** The flags that [run_ffmpeg_with_nvenc] puts in place of the encoder
    name. *)
Definition nvenc_flags : list string :=
  ["h264_nvenc";
   "-preset"; "p4";
   "-profile:v"; "high";
   "-rc"; "vbr";
   "-cq"; "23";
   "-b:v"; "3M";
   "-maxrate"; "5M";
   "-bufsize"; "6M";
   "-pix_fmt"; "yuv420p";
   "-r"; "30";
   "-g"; "60";
   "-movflags"; "+faststart"].

(** The loop of [GPUWorker.run_ffmpeg_with_nvenc] that builds [nvenc_cmd],
    the command it launches. *)
Fixpoint nvenc_cmd (cmd : list string) : list string :=
  match cmd with
  | [] => []
  | arg :: rest =>
      if String.eqb arg "libx264" then (nvenc_flags ++ nvenc_cmd rest)%list
      else arg :: nvenc_cmd rest
  end.
End WorkerEncoder.

(** ** Further inputs *)

(** [float(text)] on the output of [nvidia-smi], whose utilization column
    is a percentage: a decimal numeral between 0 and 100. *)
Definition percent_float (text : string) : option Q :=
  match decimal_float text with
  | Some q => if Qle_bool 0 q && Qle_bool q 100 then Some q else None
  | None => None
  end.

(** A group of one instance, busy at 45 percent, that accepts resizes. *)
Definition fleet_of_one : Autoscaler.gcloud :=
  {| Autoscaler.describe_size := fun _ => Ok (Completed 0 "1");
     Autoscaler.list_instances := Ok (Completed 0 "gpu-video-workers-a1");
     Autoscaler.ssh_nvidia_smi := fun _ => Ok (Completed 0 "45");
     Autoscaler.resize := fun _ => Ok (Completed 0 EmptyString) |}.

Section MoreWorkerScenarios.

Import CloudWorker.

(** A pending job whose [config.json] was never written. *)
Definition job_without_config : bucket :=
  <["jobs/news/j1/status.json" := BJson (<["status" := JStr "pending"]> ∅)]> ∅.

(** A pending job that asks for no clip at all. *)
Definition job_without_units : bucket :=
  <["jobs/news/j1/status.json" := BJson (<["status" := JStr "pending"]> ∅)]>
    (<["jobs/news/j1/config.json" := BJson (<["total_questions" := JInt 0]> ∅)]> ∅).

(** Worker A, carrying the two handles, once it has scanned bucket [b] and
    claimed the job of reference [0]. *)
Definition claimed_with_handles (b : bucket) : proc :=
  with_handles (snd (claim_job 0%nat (scanned "worker-a" 0 b))).

End MoreWorkerScenarios.
(** * Properties of the autoscaler *)

Section AutoscalerProperties.

Import Autoscaler.

Lemma Qltb_lt (x y : Q) : Qltb x y = true <-> (x < y)%Q.
Proof.
  unfold Qltb. rewrite negb_true_iff, <- not_true_iff_false, Qle_bool_iff.
  split; [apply Qnot_le_lt | apply Qlt_not_le].
Qed.

(** [pending / (JOBS_PER_GPU * GPU_EFFICIENCY)] is [pending / 100]: its
    truncation and its floor are the integer quotient. *)
Lemma Qtrunc_base (pending : Z) :
  Qtrunc (inject_Z pending / (inject_Z JOBS_PER_GPU * GPU_EFFICIENCY)) =
  Z.quot pending 100.
Proof.
  unfold Qtrunc, JOBS_PER_GPU, GPU_EFFICIENCY, Qdiv, Qmult, Qinv, inject_Z. simpl.
  change (Z.pos (1 * 2)) with 2. change (Z.pos (1 * (200 * 1))) with (2 * 100).
  rewrite Z.mul_comm. apply Z.quot_mul_cancel_l; lia.
Qed.

Lemma Qfloor_base (pending : Z) :
  Qfloor (inject_Z pending / (inject_Z JOBS_PER_GPU * GPU_EFFICIENCY)) =
  pending / 100.
Proof.
  unfold Qfloor, JOBS_PER_GPU, GPU_EFFICIENCY, Qdiv, Qmult, Qinv, inject_Z. simpl.
  change (Z.pos (1 * 2)) with 2. change (Z.pos (1 * (200 * 1))) with (2 * 100).
  rewrite Z.mul_comm. apply Z.div_mul_cancel_l; lia.
Qed.

(** The branch guarded by the cooldown cannot change the result: below
    five pending jobs the clamped value is already [1]. *)
Lemma calculate_desired_instances_value self now pending util :
  calculate_desired_instances self now pending util =
  Z.max 1 (Z.min 20 (Z.max 0 (Z.quot pending 100))).
Proof.
  unfold calculate_desired_instances. rewrite Qtrunc_base.
  unfold MIN_INSTANCES, MAX_INSTANCES.
  destruct (pending <? 5) eqn:Hp; simpl; [|reflexivity].
  apply Z.ltb_lt in Hp.
  assert (Hq : Z.quot pending 100 <= 0).
  { destruct (Z_lt_le_dec pending 0) as [Hn|Hn].
    - apply Z.quot_le_upper_bound; lia.
    - rewrite Z.quot_small; lia. }
  destruct (Qltb util 30); [|reflexivity].
  destruct (last_scale_down self) as [t|]; [destruct (_ <? _)|]; lia.
Qed.

(** C9. [should_scale] answers true exactly when the sizes differ by two
    or more, or utilization is above 80 with a larger target, or
    utilization is below 20 with a smaller target; with current 5 and
    desired 6 it answers false at utilization 50 and true at 85. *)
Theorem should_scale_iff :
  (forall (current desired : Z) (util : Q),
     should_scale current desired util = true <->
     2 <= Z.abs (current - desired)
     \/ ((80 < util)%Q /\ current < desired)
     \/ ((util < 20)%Q /\ desired < current))
  /\ should_scale 5 6 50 = false
  /\ should_scale 5 6 85 = true.
Proof.
  split; [|split; reflexivity].
  intros current desired util. unfold should_scale.
  rewrite <- !Qltb_lt.
  destruct (2 <=? Z.abs (current - desired)) eqn:Hd;
    [apply Z.leb_le in Hd | apply Z.leb_gt in Hd].
  { split; auto. }
  destruct (Qltb 80 util) eqn:Hh, (Qltb util 20) eqn:Hl;
    destruct (current <? desired) eqn:Hcd, (desired <? current) eqn:Hdc; simpl;
    try apply Z.ltb_lt in Hcd; try apply Z.ltb_ge in Hcd;
    try apply Z.ltb_lt in Hdc; try apply Z.ltb_ge in Hdc;
    split; intros H; auto; try discriminate; try lia;
    destruct H as [H|[[H1 H2]|[H1 H2]]]; try discriminate; lia.
Qed.

(** C5, as stated, fails: with 150 pending jobs the code answers 1 where
    rounding up gives 2. *)
Lemma calculate_desired_instances_rounds_down :
  calculate_desired_instances scaled_down_10s_ago (timedelta_seconds 1000) 150 50 = 1
  /\ compute_desired_spec (Some (timedelta_seconds 990)) (timedelta_seconds 1000) 150 50 = 2
  /\ calculate_desired_instances scaled_down_10s_ago (timedelta_seconds 1000) 150 50 <>
     Z.max MIN_INSTANCES
       (Z.min MAX_INSTANCES
          (Qceiling (inject_Z 150 / (inject_Z JOBS_PER_GPU * GPU_EFFICIENCY)))).
Proof. repeat split; vm_compute; congruence. Qed.

(** C5, amended. For a non-negative pending count the result is the floor
    of [pending / (jobs_per_instance * efficiency)] clamped to
    [MIN_INSTANCES .. MAX_INSTANCES]; the lowering applied when fewer than
    5 jobs are pending, utilization is below 30 and the cooldown has
    elapsed leaves that value as it is; the result is never below
    [MIN_INSTANCES] nor above [MAX_INSTANCES]. *)
Theorem calculate_desired_instances_clamped_floor
    (self : autoscaler) (now : datetime) (pending : Z) (util : Q) :
  0 <= pending ->
  let clamped :=
    Z.max MIN_INSTANCES
      (Z.min MAX_INSTANCES
         (Qfloor (inject_Z pending / (inject_Z JOBS_PER_GPU * GPU_EFFICIENCY)))) in
  let cooled :=
    match last_scale_down self with
    | None => true
    | Some t => timedelta_seconds SCALE_DOWN_DELAY <? now - t
    end in
  calculate_desired_instances self now pending util =
    (if (pending <? 5) && Qltb util 30 && cooled
     then Z.min clamped MIN_INSTANCES else clamped)
  /\ calculate_desired_instances self now pending util = clamped
  /\ MIN_INSTANCES <= calculate_desired_instances self now pending util <= MAX_INSTANCES.
Proof.
  intros Hp clamped cooled.
  assert (Hc : calculate_desired_instances self now pending util = clamped).
  { rewrite calculate_desired_instances_value. unfold clamped.
    rewrite Qfloor_base, Z.quot_div_nonneg by lia.
    unfold MIN_INSTANCES, MAX_INSTANCES.
    pose proof (Z.div_pos pending 100 Hp ltac:(lia)). lia. }
  assert (Hb : MIN_INSTANCES <= clamped <= MAX_INSTANCES).
  { unfold clamped, MIN_INSTANCES, MAX_INSTANCES. lia. }
  split; [|split; [exact Hc | rewrite Hc; exact Hb]].
  rewrite Hc.
  destruct ((pending <? 5) && Qltb util 30 && cooled) eqn:Hlow; [|reflexivity].
  apply andb_prop in Hlow as [Hlow _]. apply andb_prop in Hlow as [Hlow _].
  apply Z.ltb_lt in Hlow.
  unfold clamped. rewrite Qfloor_base.
  assert (pending / 100 = 0) as -> by (apply Z.div_small; lia).
  reflexivity.
Qed.

Lemma calculate_desired_instances_clamped_floor_witness :
  0 <= 4000
  /\ calculate_desired_instances scaled_down_10s_ago (timedelta_seconds 1000) 4000 50 = 20
  /\ calculate_desired_instances scaled_down_10s_ago (timedelta_seconds 1000) 0 5 = 1.
Proof.
  split; [lia|].
  split.
  - destruct (calculate_desired_instances_clamped_floor
                scaled_down_10s_ago (timedelta_seconds 1000) 4000 50 ltac:(lia))
      as (_ & -> & _).
    reflexivity.
  - destruct (calculate_desired_instances_clamped_floor
                scaled_down_10s_ago (timedelta_seconds 1000) 0 5 ltac:(lia))
      as (_ & -> & _).
    reflexivity.
Defined.

(** The cooldown has no influence on the desired size. *)
Lemma calculate_desired_instances_ignores_cooldown self self' now now' pending util :
  calculate_desired_instances self now pending util =
  calculate_desired_instances self' now' pending util.
Proof. now rewrite !calculate_desired_instances_value. Qed.

(** C6, violated by the code. Ten seconds after a scale-down, with an
    empty queue and five instances at 5 percent utilization, the scaling
    cycle launches a resize from 5 to 1 and stamps a new scale-down. *)
Theorem scale_down_inside_cooldown :
  let now := timedelta_seconds 1000 in
  let outcome :=
    run_scaling_cycle decimal_float decimal_int scaled_down_10s_ago ∅
      idle_fleet_of_five now in
  last_scale_down scaled_down_10s_ago = Some (timedelta_seconds 990)
  /\ now - timedelta_seconds 990 < timedelta_seconds SCALE_DOWN_DELAY
  /\ pending_jobs (snd (fst outcome)) = 0
  /\ gpu_utilization (snd (fst outcome)) = 5%Q
  /\ current_instances (snd (fst outcome)) = 5
  /\ snd outcome = [1]
  /\ last_scale_down (fst (fst outcome)) = Some now.
Proof. vm_compute. repeat split; congruence. Qed.

Lemma add_instance_utilization_failed py_float g acc instance :
  reading_failed py_float (ssh_nvidia_smi g instance) ->
  add_instance_utilization py_float g acc instance = acc.
Proof.
  unfold reading_failed, add_instance_utilization.
  destruct (ssh_nvidia_smi g instance) as [r|e]; [|reflexivity].
  intros [Hrc|[Hp|Hl]].
  - apply Z.eqb_neq in Hrc. now rewrite Hrc.
  - rewrite Hp. now destruct (_ =? _).
  - unfold parse_utilizations. rewrite Hl. now destruct (_ =? _).
Qed.

Lemma fleet_telemetry_down_reads_zero py_float g :
  fleet_telemetry_down py_float g -> get_gpu_utilization py_float g = 0%Q.
Proof.
  unfold fleet_telemetry_down, get_gpu_utilization, command_failed.
  intros [Hl|[(r & Hl & Hn)|Hall]].
  - destruct (list_instances g) as [r|e]; [|reflexivity].
    apply Z.eqb_neq in Hl. now rewrite Hl.
  - rewrite Hl, Hn. now destruct (negb _).
  - destruct (list_instances g) as [r|e]; [|reflexivity].
    destruct (negb _); [reflexivity|].
    destruct (stripped_lines (stdout r)) as [|i l] eqn:Hi; [reflexivity|].
    assert (Hfold : forall l acc,
               fold_left (add_instance_utilization py_float g) l acc = acc).
    { clear -Hall. induction l as [|x l IH]; intros acc; simpl; [reflexivity|].
      rewrite add_instance_utilization_failed by apply Hall. apply IH. }
    rewrite Hfold. reflexivity.
Qed.

End AutoscalerProperties.

(** * Properties of the render worker *)

Section WorkerProperties.

Import CloudWorker.

(** ** Running the statements *)

Ltac run_monad :=
  unfold mbind, M_bind, bind, get, ret, modify, raise, try_except, utcnow,
    read_job, write_job; simpl.

(** With no transient failure pending, a request goes through. *)
Lemma request_ok s : faults s = [] -> request s = (Ok tt, s).
Proof. unfold request. now intros ->. Qed.

(** An overwrite, or a create-only upload on a free name, stores the
    object and is logged. *)
Lemma upload_ok name c co s :
  faults s = [] -> (co = false \/ gcs s !! name = None) ->
  upload_from_string name c co s =
  (Ok tt, set_uploads (name :: uploads s) (set_gcs (<[name := c]> (gcs s)) s)).
Proof.
  intros Hf Hc. unfold upload_from_string. run_monad.
  rewrite request_ok by done.
  destruct Hc as [->| ->]; [reflexivity|].
  rewrite bool_decide_eq_false_2, andb_false_r; [reflexivity|].
  intros [? ?]; discriminate.
Qed.

(** A create-only upload on an existing object raises and changes
    nothing. *)
Lemma upload_exists name c s :
  faults s = [] -> is_Some (gcs s !! name) ->
  upload_from_string name c true s = (Raise PreconditionFailed, s).
Proof.
  intros Hf Hc. unfold upload_from_string. run_monad.
  rewrite request_ok by done.
  rewrite bool_decide_eq_true_2 by done. reflexivity.
Qed.

(** [update_status_data] only touches the metadata of the job. *)
Lemma update_status_data_spec r changes s :
  exists d h,
    update_status_data r changes s = (Ok d, set_heap h s)
    /\ (forall k v, changes !! k = Some v -> d !! k = Some v)
    /\ (forall r', job_id (h !!! r') = job_id (heap s !!! r')
                /\ channel (h !!! r') = channel (heap s !!! r')).
Proof.
  unfold update_status_data. run_monad.
  destruct (metadata (heap s !!! r)) as [d|] eqn:Hm.
  - destruct (size d =? 0)%nat.
    + exists changes, (heap s). split; [by destruct s|]. split; auto.
    + exists (changes ∪ d), (<[r := with_metadata (Some (changes ∪ d)) (heap s !!! r)]> (heap s)).
      split; [reflexivity|]. split.
      * intros k v Hk. by apply lookup_union_Some_l.
      * intros r'. destruct (decide (r = r')) as [->|Hne].
        -- by rewrite lookup_total_insert_eq.
        -- by rewrite lookup_total_insert_ne.
  - exists changes, (heap s). split; [by destruct s|]. split; auto.
Qed.

(** The two steps of [claim_job], request by request. *)
Lemma claim_step_start_free r s :
  faults s = [] -> gcs s !! lease_path (heap s !!! r) = None ->
  claim_step r AtStart s =
  (Ok LeaseWritten,
   set_uploads (lease_path (heap s !!! r) :: uploads s)
     (set_gcs (<[lease_path (heap s !!! r) :=
                   BJson (lease_data (WORKER_ID s) (clock s) (clock s))]> (gcs s)) s)).
Proof.
  intros Hf Hl. unfold claim_step, claim_lease. run_monad.
  rewrite upload_ok by auto. reflexivity.
Qed.

Lemma claim_step_start_taken r s :
  faults s = [] -> is_Some (gcs s !! lease_path (heap s !!! r)) ->
  claim_step r AtStart s = (Ok (Returned false), s).
Proof.
  intros Hf Hl. unfold claim_step, claim_lease. run_monad.
  rewrite upload_exists by done. reflexivity.
Qed.

Lemma claim_status_spec r s :
  faults s = [] ->
  exists d h,
    claim_status r s =
      (Ok tt,
       set_current_job (Some r)
         (set_heap h
            (set_uploads (status_path (heap s !!! r) :: uploads s)
               (set_gcs (<[status_path (heap s !!! r) := BJson d]> (gcs s)) s))))
    /\ d !! "status" = Some (JStr "running")
    /\ d !! "worker_id" = Some (JStr (WORKER_ID s))
    /\ status (h !!! r) = "running"
    /\ (forall r', job_id (h !!! r') = job_id (heap s !!! r')
                /\ channel (h !!! r') = channel (heap s !!! r')).
Proof.
  intros Hf. unfold claim_status. run_monad.
  destruct (update_status_data_spec r
              (<["status" := JStr "running"]>
                 (<["worker_id" := JStr (WORKER_ID s)]>
                    (<["started_at" := JTime (clock s)]> ∅))) s)
    as (d & h & -> & Hd & Hh).
  rewrite upload_ok by auto. simpl.
  eexists d, _. split; [reflexivity|].
  split; [by apply Hd|]. split; [by apply Hd|].
  split; [by rewrite lookup_total_insert_eq|].
  intros r'. destruct (decide (r = r')) as [<-|Hne].
  - rewrite lookup_total_insert_eq. simpl. apply Hh.
  - rewrite lookup_total_insert_ne by done. apply Hh.
Qed.

Lemma claim_step_written r s :
  faults s = [] ->
  exists d h,
    claim_step r LeaseWritten s =
      (Ok (Returned true),
       set_current_job (Some r)
         (set_heap h
            (set_uploads (status_path (heap s !!! r) :: uploads s)
               (set_gcs (<[status_path (heap s !!! r) := BJson d]> (gcs s)) s))))
    /\ d !! "status" = Some (JStr "running")
    /\ d !! "worker_id" = Some (JStr (WORKER_ID s))
    /\ status (h !!! r) = "running"
    /\ (forall r', job_id (h !!! r') = job_id (heap s !!! r')
                /\ channel (h !!! r') = channel (heap s !!! r')).
Proof.
  intros Hf. destruct (claim_status_spec r s Hf) as (d & h & Hc & H).
  exists d, h. split; [|exact H].
  unfold claim_step. run_monad. rewrite Hc. reflexivity.
Qed.

(** [claim_job] is its two steps run back to back. *)
Lemma claim_job_two_steps r s :
  claim_job r s =
  (let '(res, s1) := claim_step r AtStart s in
   match res with
   | Ok LeaseWritten =>
       let '(res2, s2) := claim_step r LeaseWritten s1 in
       (match res2 with Ok (Returned b) => Ok b | _ => Ok false end, s2)
   | _ => (Ok false, s1)
   end).
Proof.
  unfold claim_job, claim_step. run_monad.
  destruct (claim_lease r s) as [[[]|e] s1]; [|reflexivity].
  destruct (claim_status r s1) as [[[]|e] s2]; reflexivity.
Qed.

Lemma lease_status_paths_differ job : lease_path job <> status_path job.
Proof.
  unfold lease_path, status_path. intros H.
  apply (inj (String.app _)) in H. discriminate.
Qed.


(** ** Workers racing for one job *)

Lemma paths_of_claims job w :
  claims job w ->
  lease_path (job_of w) = lease_path job /\ status_path (job_of w) = status_path job.
Proof.
  intros [Hc Hj]. unfold lease_path, status_path, job_dir_of. by rewrite Hc, Hj.
Qed.

Lemma set_gcs_same s : set_gcs (gcs s) s = s.
Proof. by destruct s. Qed.

(** With requests that go through, a claim on a leased job answers
    [False] and changes nothing. *)
Lemma claim_job_taken r s :
  faults s = [] -> is_Some (gcs s !! lease_path (heap s !!! r)) ->
  claim_job r s = (Ok false, s).
Proof.
  intros Hf Hl. rewrite claim_job_two_steps. by rewrite claim_step_start_taken.
Qed.

Lemma holds_lease_shared job ws st st' k wk :
  shared st' = shared st -> holds_lease job ws st k wk -> holds_lease job ws st' k wk.
Proof.
  intros Hs (w0 & before & H0 & Hj & Hb & Hsh & H). exists w0, before.
  rewrite Hs. auto.
Qed.

(** The invariant holds at the start and is kept by every step, whoever
    takes it. *)
Lemma race_inv_init job ws b :
  Forall (ready job) ws -> b !! lease_path job = None ->
  race_inv job ws {| shared := b; racers := ws |}.
Proof.
  intros Hr Hb. rewrite Forall_lookup in Hr. split; simpl.
  - reflexivity.
  - intros j w Hw. destruct (Hr j w Hw) as (_ & Hf & Hc). eauto.
  - left. split; [done|]. intros j w Hw. destruct (Hr j w Hw) as (Hpc & _).
    by split.
Qed.

Lemma race_inv_step job ws st i :
  race_inv job ws st -> race_inv job ws (race_step st i).
Proof.
  intros [Hlen Heach Hcases]. unfold race_step.
  destruct (racers st !! i) as [w|] eqn:Hw; [|by split].
  destruct (Heach i w Hw) as (Hf & Hcl & w0 & Hw0).
  destruct (paths_of_claims job w Hcl) as [Hlp Hsp]. unfold job_of in Hlp, Hsp.
  set (s := set_gcs (shared st) (r_proc w)).
  assert (Hfs : faults s = []) by done.
  assert (Hlps : lease_path (heap s !!! r_job w) = lease_path job) by done.
  assert (Hsps : status_path (heap s !!! r_job w) = status_path job) by done.
  assert (Hi : (i < length (racers st))%nat) by (by eapply lookup_lt_Some).
  assert (Heach' : forall a s' j w',
             faults s' = [] ->
             claims job {| r_proc := s'; r_job := r_job w; r_pc := a |} ->
             <[i := {| r_proc := s'; r_job := r_job w; r_pc := a |}]> (racers st) !! j
             = Some w' ->
             faults (r_proc w') = [] /\ claims job w' /\ exists w0, ws !! j = Some w0).
  { intros a s' j w' Hf' Hc' Hj. destruct (decide (j = i)) as [->|Hne].
    - rewrite list_lookup_insert_eq in Hj by done. injection Hj as <-. simpl. eauto.
    - rewrite list_lookup_insert_ne in Hj by done. eauto. }
  destruct (r_pc w) eqn:Hpc.
  - (* the create-only upload *)
    destruct Hcases as [[Hfree Hall]|(Htaken & k & wk & Hk & Hhold & Hrest)].
    + destruct (Hall i w Hw) as [Hwi _].
      assert (E : claim_step (r_job w) AtStart s
                  = (Ok LeaseWritten,
                     set_uploads (lease_path job :: uploads s)
                       (set_gcs (<[lease_path job :=
                                     BJson (lease_data (WORKER_ID s) (clock s) (clock s))]>
                                   (gcs s)) s))).
      { rewrite claim_step_start_free by (by rewrite ?Hlps). by rewrite Hlps. }
      rewrite E. split; cbn [shared racers].
      * by rewrite length_insert.
      * intros j w'. by apply Heach'.
      * right. split; [simpl; by rewrite lookup_insert_eq|].
        eexists i, _. split; [by rewrite list_lookup_insert_eq|].
        split.
        { exists w, (shared st). do 3 (split; [done|]). split; [done|].
          left. split; [done|]. split; [exact E|done]. }
        intros j w' Hne Hj. rewrite list_lookup_insert_ne in Hj by done.
        left. by apply Hall.
    + assert (Hik : i <> k).
      { intros ->. rewrite Hw in Hk. injection Hk as <-.
        destruct Hhold as (w1 & before & _ & _ & _ & _ & [[Hp _]|[Hp _]]); congruence. }
      assert (Hwi : ws !! i = Some w).
      { destruct (Hrest i w Hik Hw) as [[H _]|(w1 & _ & _ & Hp & _)]; [done|congruence]. }
      rewrite claim_step_start_taken by (by rewrite ?Hlps). split; cbn [shared racers].
      * by rewrite length_insert.
      * intros j w'. by apply Heach'.
      * right. split; [done|]. exists k, wk.
        split; [by rewrite list_lookup_insert_ne|].
        split; [by eapply holds_lease_shared; [|exact Hhold]|].
        intros j w' Hne Hj. destruct (decide (j = i)) as [->|Hne'].
        -- rewrite list_lookup_insert_eq in Hj by done. injection Hj as <-.
           right. exists w. by repeat split.
        -- rewrite list_lookup_insert_ne in Hj by done. eauto.
  - (* the status upload: only the holder of the lease gets here *)
    destruct Hcases as [[Hfree Hall]|(Htaken & k & wk & Hk & Hhold & Hrest)].
    { destruct (Hall i w Hw). congruence. }
    assert (i = k) as <-.
    { destruct (decide (i = k)) as [|Hne]; [done|].
      destruct (Hrest i w Hne Hw) as [[_ Hp]|(w1 & _ & _ & Hp & _)]; congruence. }
    rewrite Hw in Hk. injection Hk as <-.
    destruct Hhold as (w1 & before & Hw1 & Hjob & Hbefore & Hshared
                       & [(_ & E1 & Hu)|(Hp & _)]); [|congruence].
    assert (Hs : s = r_proc w) by (unfold s; rewrite Hshared; apply set_gcs_same).
    destruct (claim_step_written (r_job w) s Hfs) as (d & h & E2 & _ & _ & _ & Hh).
    rewrite E2, Hsps. split; cbn [shared racers].
    + by rewrite length_insert.
    + intros j w'. apply Heach'; [done|].
      destruct Hcl as [Hc1 Hc2]. unfold claims, job_of in *. simpl.
      destruct (Hh (r_job w)) as [-> ->]. done.
    + right. split.
      { simpl. rewrite lookup_insert_ne; [done|].
        apply not_eq_sym, lease_status_paths_differ. }
      eexists i, _. split; [by rewrite list_lookup_insert_eq|].
      split.
      { exists w1, before. do 3 (split; [done|]). split; [done|].
        right. split; [done|]. split.
        - rewrite claim_job_two_steps, E1. rewrite <- Hjob, <- Hs, E2, Hsps. done.
        - simpl. by rewrite Hu. }
      intros j w' Hne Hj. rewrite list_lookup_insert_ne in Hj by done. eauto.
  - (* already returned: only the view of the bucket is refreshed *)
    unfold claim_step. run_monad. fold s.
    destruct Hcases as [[Hfree Hall]|(Htaken & k & wk & Hk & Hhold & Hrest)].
    { destruct (Hall i w Hw). congruence. }
    split; cbn [shared racers].
    + by rewrite length_insert.
    + intros j w'. by apply Heach'.
    + right. split; [done|].
      destruct (decide (i = k)) as [->|Hne].
      * rewrite Hw in Hk. injection Hk as <-.
        destruct Hhold as (w1 & before & Hw1 & Hjob & Hbefore & Hshared
                           & [(Hp & _)|(Hp & E & Hu)]); [congruence|].
        assert (Hs : s = r_proc w) by (unfold s; rewrite Hshared; apply set_gcs_same).
        eexists k, _. split; [by rewrite list_lookup_insert_eq|].
        split.
        { exists w1, before. do 3 (split; [done|]).
          cbn [shared r_proc r_pc]. rewrite Hs. split; [done|].
          right. by rewrite <- Hpc. }
        intros j w' Hne Hj. rewrite list_lookup_insert_ne in Hj by done. eauto.
      * exists k, wk. split; [by rewrite list_lookup_insert_ne|].
        split; [by eapply holds_lease_shared; [|exact Hhold]|].
        intros j w' Hne' Hj. destruct (decide (j = i)) as [->|Hne''].
        -- rewrite list_lookup_insert_eq in Hj by done. injection Hj as <-.
           destruct (Hrest i w Hne Hw) as [[_ Hp]|(w1 & Hw1 & Hjob & Hp & Hrp & Hl)];
             [congruence|].
           right. exists w1. split; [done|]. split; [done|].
           split; [cbn [r_pc]; congruence|].
           split; [|exact Htaken]. cbn [r_proc]. unfold s. by rewrite Hrp.
        -- rewrite list_lookup_insert_ne in Hj by done. eauto.
Qed.

Lemma race_inv_run job ws schedule st :
  race_inv job ws st -> race_inv job ws (race_run schedule st).
Proof.
  revert st. induction schedule as [|i schedule IH]; intros st Hinv; [done|].
  apply IH, race_inv_step, Hinv.
Qed.

(** Every step of a worker moves it forward until it has returned, so
    two turns are enough for each. *)
Lemma claim_step_advances r pc s :
  exists pc' s', claim_step r pc s = (Ok pc', s')
    /\ (Nat.min 2 (S (pc_rank pc)) <= pc_rank pc')%nat.
Proof.
  destruct pc as [| |b]; unfold claim_step; run_monad.
  - destruct (claim_lease r s) as [[[]|e] s']; eexists _, _; (split; [reflexivity|simpl; auto]).
  - destruct (claim_status r s) as [[[]|e] s']; eexists _, _; (split; [reflexivity|simpl; auto]).
  - eexists _, _; (split; [reflexivity|simpl; auto]).
Qed.

Lemma race_step_advances st i j w :
  racers st !! j = Some w ->
  exists w', racers (race_step st i) !! j = Some w'
    /\ (Nat.min 2 (pc_rank (r_pc w) + (if decide (i = j) then 1 else 0))
        <= pc_rank (r_pc w'))%nat.
Proof.
  intros Hj. unfold race_step.
  destruct (racers st !! i) as [wi|] eqn:Hi.
  - destruct (claim_step_advances (r_job wi) (r_pc wi) (set_gcs (shared st) (r_proc wi)))
      as (pc' & s' & -> & Hrank).
    cbn [racers]. destruct (decide (i = j)) as [->|Hne].
    + rewrite Hj in Hi. injection Hi as <-.
      eexists. split; [apply list_lookup_insert_eq; by eapply lookup_lt_Some|].
      cbn [r_pc]. lia.
    + exists w. split; [by rewrite list_lookup_insert_ne|]. lia.
  - exists w. split; [done|]. destruct (decide (i = j)) as [->|]; [congruence|lia].
Qed.

Lemma race_run_advances schedule st j w :
  racers st !! j = Some w ->
  exists w', racers (race_run schedule st) !! j = Some w'
    /\ (Nat.min 2 (pc_rank (r_pc w) + turns_of j schedule) <= pc_rank (r_pc w'))%nat.
Proof.
  revert st w. induction schedule as [|i schedule IH]; intros st w Hj.
  - exists w. split; [done|]. change (turns_of j []) with 0%nat. lia.
  - destruct (race_step_advances st i j w Hj) as (w1 & Hj1 & Hr1).
    destruct (IH _ _ Hj1) as (w' & Hj' & Hr').
    exists w'. split; [exact Hj'|].
    unfold turns_of in *. rewrite filter_cons.
    destruct (decide (i = j)); cbn [length] in *; lia.
Qed.

(** C2, amended. N >= 1 workers call [claim_job] on the same unleased
    job, their bucket requests interleaved by any schedule that lets each
    of them finish, and no request failing: every call returns, and
    exactly one of them gets [True]. That one ends as [claim_job] leaves
    a worker that meets a bucket without the lease: it has written the
    lease, then the status record, and the bucket is as it left it. Every
    other ends as [claim_job] leaves a worker that meets the lease: with
    [False], having written nothing, neither lease nor status record. *)
Theorem claim_race_exactly_one
    (job : JobInfo) (ws : list racer) (b : bucket) (schedule : list nat) :
  ws <> [] ->
  Forall (ready job) ws ->
  b !! lease_path job = None ->
  (forall i, (i < length ws)%nat -> (2 <= turns_of i schedule)%nat) ->
  let final := race_run schedule {| shared := b; racers := ws |} in
  length (racers final) = length ws
  /\ exists i winner winner0 before,
       racers final !! i = Some winner
       /\ ws !! i = Some winner0
       /\ r_pc winner = Returned true
       /\ before !! lease_path job = None
       /\ claim_job (r_job winner0) (set_gcs before (r_proc winner0))
          = (Ok true, r_proc winner)
       /\ shared final = gcs (r_proc winner)
       /\ uploads (r_proc winner)
          = status_path job :: lease_path job :: uploads (r_proc winner0)
       /\ forall j w, j <> i -> racers final !! j = Some w ->
            r_pc w = Returned false
            /\ exists w0, ws !! j = Some w0
                 /\ is_Some (gcs (r_proc w) !! lease_path job)
                 /\ claim_job (r_job w0) (set_gcs (gcs (r_proc w)) (r_proc w0))
                    = (Ok false, r_proc w)
                 /\ uploads (r_proc w) = uploads (r_proc w0).
Proof.
  intros Hne Hready Hfree Hfair final.
  assert (Hinv : race_inv job ws final).
  { apply race_inv_run, race_inv_init; done. }
  assert (Hdone : forall j w, racers final !! j = Some w -> exists a, r_pc w = Returned a).
  { intros j w Hj.
    assert (Hlt : (j < length ws)%nat).
    { rewrite <- (inv_length _ _ _ Hinv). by eapply lookup_lt_Some. }
    destruct (lookup_lt_is_Some_2 ws j Hlt) as [w0 Hw0].
    destruct (race_run_advances schedule {| shared := b; racers := ws |} j w0 Hw0)
      as (w' & Hj' & Hrank).
    fold final in Hj'. rewrite Hj in Hj'. injection Hj' as <-.
    specialize (Hfair j Hlt).
    assert (Hr : (2 <= pc_rank (r_pc w))%nat) by lia.
    destruct (r_pc w) as [| |a]; simpl in Hr; [lia|lia|by exists a]. }
  split; [apply (inv_length _ _ _ Hinv)|].
  destruct (inv_cases _ _ _ Hinv) as [[_ Hall]|(_ & k & wk & Hk & Hhold & Hrest)].
  - destruct ws as [|w0 ws']; [done|].
    assert (Hlt : (0 < length (racers final))%nat).
    { rewrite (inv_length _ _ _ Hinv). simpl. lia. }
    destruct (lookup_lt_is_Some_2 _ _ Hlt) as [w Hw].
    destruct (Hall 0%nat w Hw) as [_ Hpc]. destruct (Hdone 0%nat w Hw). congruence.
  - destruct Hhold as (wk0 & before & Hk0 & _ & Hbefore & Hshared
                       & [(Hp & _)|(Hp & E & Hu)]).
    { destruct (Hdone k wk Hk). congruence. }
    exists k, wk, wk0, before. do 7 (split; [done|]).
    intros j w Hjk Hj.
    destruct (Hrest j w Hjk Hj) as [[_ Hpj]|(w0 & Hw0 & Hjob & Hpj & Hrp & Hl)].
    { destruct (Hdone j w Hj). congruence. }
    split; [done|]. exists w0. do 2 (split; [done|]).
    destruct (inv_each _ _ _ Hinv j w Hj) as (Hf & Hcl & _).
    destruct (paths_of_claims job w Hcl) as [Hlp _]. unfold job_of in Hlp.
    split.
    + rewrite <- Hrp, <- Hjob. apply claim_job_taken; [done|]. by rewrite Hlp.
    + by rewrite Hrp.
Qed.

(** C2 as stated does not hold: it takes for granted that no request
    fails. Three workers race for the job and the status upload of the
    one that created the lease fails: all three calls answer [False],
    the lease stays in the bucket in that worker's name and the record
    still says pending. A single worker does the same: its lease write
    succeeds and its [claim_job] answers [False]. *)
Lemma claim_race_without_winner :
  let final :=
    race_run [1; 0; 2; 2; 1; 0]%nat
      {| shared := one_pending_job; racers := three_racers_one_failing |} in
  map r_pc (racers final) = [Returned false; Returned false; Returned false]
  /\ map (fun w => uploads (r_proc w)) (racers final)
     = [[]; ["jobs/news/j1/lease.lock"]; []]
  /\ json_field (shared final) "jobs/news/j1/lease.lock" "worker_id"
     = Some (JStr "worker-b")
  /\ json_field (shared final) "jobs/news/j1/status.json" "status"
     = Some (JStr "pending")
  /\ fst (claim_job 0%nat
            (set_faults [false; true] (scanned "worker-b" 5 one_pending_job)))
     = Ok false
  /\ uploads (snd (claim_job 0%nat
                     (set_faults [false; true] (scanned "worker-b" 5 one_pending_job))))
     = ["jobs/news/j1/lease.lock"].
Proof. vm_compute. repeat split; congruence. Qed.

(** ** Telemetry of the worker *)

(** The worker's reading never raises and leaves the process as it is. *)
Lemma get_gpu_utilization_returns py_float s :
  exists v, get_gpu_utilization py_float s = (Ok v, s).
Proof.
  unfold get_gpu_utilization. run_monad.
  destruct (nvidia_smi s) as [res|e]; [|by eexists].
  destruct (returncode res =? 0); [|by eexists].
  destruct (parse_utilizations py_float (stdout res)) as [[|u l]|]; by eexists.
Qed.

Lemma worker_telemetry_down_reads_zero py_float s :
  worker_telemetry_down py_float s ->
  get_gpu_utilization py_float s = (Ok 0%Q, s).
Proof.
  unfold worker_telemetry_down, reading_failed, get_gpu_utilization. run_monad.
  destruct (nvidia_smi s) as [res|e]; [|done].
  intros [Hrc|[Hp|Hl]].
  - apply Z.eqb_neq in Hrc. by rewrite Hrc.
  - rewrite Hp. by destruct (_ =? _).
  - unfold parse_utilizations. rewrite Hl. by destruct (_ =? _).
Qed.

(** ** The render loop *)

Lemma self_bucket_ok s : has_bucket s = true -> self_bucket s = (Ok tt, s).
Proof. intros H. unfold self_bucket. run_monad. by rewrite H. Qed.

Lemma self_client_ok s : has_client s = true -> self_client s = (Ok tt, s).
Proof. intros H. unfold self_client. run_monad. by rewrite H. Qed.

(** The loop renders every index whose clip is not stored; it reads the
    shutdown event and nothing else of the worker. *)
Lemma render_clips_spec jid dir existing total indices s :
  faults s = [] -> shutdown_event s = false -> has_bucket s = true ->
  exists s',
    render_clips jid dir existing total indices s = (Ok true, s')
    /\ rendered s' =
         (rev (map (fun i => (jid, i))
                 (filter (fun i => is_existing (clip_name i) existing = false) indices))
          ++ rendered s)%list
    /\ faults s' = [] /\ shutdown_event s' = false
    /\ has_bucket s' = true /\ has_client s' = has_client s
    /\ heap s' = heap s /\ WORKER_ID s' = WORKER_ID s
    /\ nvidia_smi s' = nvidia_smi s /\ current_job s' = current_job s.
Proof.
  revert s. induction indices as [|i rest IH]; intros s Hf Hs Hb.
  - exists s. by repeat split.
  - cbn [render_clips]. run_monad. rewrite Hs.
    rewrite filter_cons.
    destruct (is_existing (clip_name i) existing) eqn:He.
    + destruct (IH s Hf Hs Hb) as (s' & -> & H). exists s'. split; [done|].
      rewrite decide_False by done. exact H.
    + unfold sleep. run_monad. rewrite self_bucket_ok by done.
      rewrite upload_ok by auto.
      match goal with |- context [render_clips _ _ _ _ _ ?s1] =>
        destruct (IH s1) as (s' & -> & Hr & H); [done..|] end.
      simpl in Hr, H. exists s'. split; [done|].
      split; [|exact H].
      rewrite Hr. simpl. by rewrite <- app_assoc.
Qed.

Lemma download_ok name content s :
  faults s = [] -> gcs s !! name = Some content ->
  download_as_text name s = (Ok content, s).
Proof.
  intros Hf Hc. unfold download_as_text. run_monad.
  rewrite request_ok by done. by rewrite Hc.
Qed.

Lemma list_blobs_ok pre s :
  faults s = [] -> list_blobs pre s = (Ok (list_names (gcs s) pre), s).
Proof.
  intros Hf. unfold list_blobs. run_monad. by rewrite request_ok.
Qed.

(** With both handles on the worker object, [render_video_job] renders
    the units whose clip is not stored and marks the job completed. *)
Lemma render_video_job_spec py_float r s config total :
  faults s = [] -> shutdown_event s = false ->
  has_bucket s = true -> has_client s = true ->
  gcs s !! (job_dir_of (heap s !!! r) ++ "/config.json") = Some (BJson config) ->
  default (JInt 1) (config !! "total_questions") = JInt total ->
  exists s',
    render_video_job py_float r s = (Ok true, s')
    /\ rendered s' =
         (rev (map (fun i => (job_id (heap s !!! r), i))
                 (filter
                    (fun i =>
                       is_existing (clip_name i)
                         (existing_clips_of
                            (list_names (gcs s) (job_dir_of (heap s !!! r) ++ "/clips/")))
                       = false)
                    (seq 0 (Z.to_nat total))))
          ++ rendered s)%list
    /\ json_field (gcs s') (status_path (heap s !!! r)) "status" = Some (JStr "completed")
    /\ faults s' = [] /\ current_job s' = current_job s.
Proof.
  intros Hf Hs Hb Hcl Hc Ht. unfold render_video_job. run_monad.
  rewrite self_bucket_ok by done.
  rewrite (download_ok _ _ _ Hf Hc). simpl.
  rewrite self_bucket_ok by done. simpl.
  rewrite self_client_ok by done. simpl.
  rewrite self_bucket_ok by done. simpl.
  rewrite list_blobs_ok by done. rewrite Ht.
  destruct (render_clips_spec (job_id (heap s !!! r)) (job_dir_of (heap s !!! r))
              (existing_clips_of
                 (list_names (gcs s) (job_dir_of (heap s !!! r) ++ "/clips/")))
              total (seq 0 (Z.to_nat total)) s Hf Hs Hb)
    as (s1 & -> & Hr & Hf1 & Hs1 & Hb1 & Hcl1 & Hh1 & Hw1 & Hn1 & Hc1).
  unfold sleep. run_monad.
  match goal with |- context [get_gpu_utilization py_float ?s2] =>
    destruct (get_gpu_utilization_returns py_float s2) as [v ->] end.
  rewrite self_bucket_ok by done.
  rewrite upload_ok by auto.
  rewrite self_bucket_ok by done.
  match goal with |- context [update_status_data r ?ch ?s3] =>
    destruct (update_status_data_spec r ch s3) as (d & h & -> & Hd & Hh) end.
  rewrite upload_ok by auto. simpl.
  eexists. split; [reflexivity|]. simpl.
  split; [exact Hr|]. split; [|by split].
  unfold json_field, status_path. rewrite lookup_insert_eq.
  by apply Hd.
Qed.

(** Clip names determine their index. *)
Lemma string_length_app (s t : string) :
  String.length (s ++ t) = (String.length s + String.length t)%nat.
Proof. induction s as [|c s IH]; simpl; [done|]. by rewrite <- IH. Qed.

Lemma string_app_inj_r (s1 s2 t : string) : s1 ++ t = s2 ++ t -> s1 = s2.
Proof.
  revert s2. induction s1 as [|c s1 IH]; intros [|c2 s2] H.
  - done.
  - apply (f_equal String.length) in H.
    rewrite !string_length_app in H. simpl in H. lia.
  - apply (f_equal String.length) in H.
    rewrite !string_length_app in H. simpl in H. lia.
  - change (String c (s1 ++ t) = String c2 (s2 ++ t)) in H.
    injection H as -> H. f_equal. by apply IH.
Qed.

Lemma of_uint_zero_pad k d : Nat.of_uint (zero_pad k d) = Nat.of_uint d.
Proof. induction k as [|k IH]; simpl; [done|]. exact IH. Qed.

Lemma format_03d_inj i j : format_03d i = format_03d j -> i = j.
Proof.
  unfold format_03d. intros H.
  apply (f_equal NilEmpty.uint_of_string) in H. rewrite !NilEmpty.usu in H.
  injection H as H. apply (f_equal Nat.of_uint) in H.
  by rewrite !of_uint_zero_pad, !DecimalNat.Unsigned.of_to in H.
Qed.

Lemma clip_name_inj i j : clip_name i = clip_name j -> i = j.
Proof.
  unfold clip_name. intros H. apply (inj (String.app _)) in H.
  apply string_app_inj_r in H. by apply format_03d_inj.
Qed.

Lemma is_existing_elem name l : is_existing name l = true <-> name ∈ l.
Proof.
  unfold is_existing. rewrite existsb_exists. split.
  - intros (x & Hx & He). apply String.eqb_eq in He as ->. by apply list_elem_of_In.
  - intros H. exists name. split; [by apply list_elem_of_In|apply String.eqb_refl].
Qed.

(** Without the [bucket] attribute nothing is rendered and nothing is
    written: the answer is [False] and the process is as before. *)
Lemma render_video_job_without_bucket py_float r s :
  has_bucket s = false -> render_video_job py_float r s = (Ok false, s).
Proof.
  intros Hb. unfold render_video_job, self_bucket. run_monad.
  rewrite Hb. simpl. by rewrite Hb.
Qed.

(** On a worker object that carries both handles, a resumed job whose
    stored clips are those of the units in [completed] has exactly its
    other units rendered, each once and in increasing order. *)
Lemma render_video_job_skips_completed
    (py_float : string -> option Q) (s : proc) (r : ref)
    (config : dict) (total : nat) (completed : list nat) :
  let job := heap s !!! r in
  faults s = [] ->
  shutdown_event s = false ->
  has_bucket s = true ->
  has_client s = true ->
  gcs s !! (job_dir_of job ++ "/config.json") = Some (BJson config) ->
  config !! "total_questions" = Some (JInt (Z.of_nat total)) ->
  (forall name,
     name ∈ existing_clips_of (list_names (gcs s) (job_dir_of job ++ "/clips/")) <->
     exists i, i ∈ completed /\ name = clip_name i) ->
  exists s',
    render_video_job py_float r s = (Ok true, s')
    /\ rendered s' =
         (rev (map (fun i => (job_id job, i))
                 (filter (fun i => i ∉ completed) (seq 0 total)))
          ++ rendered s)%list.
Proof.
  intros job Hf Hs Hb Hcl Hc Ht Hck. subst job.
  destruct (render_video_job_spec py_float r s config (Z.of_nat total) Hf Hs Hb Hcl Hc)
    as (s' & Hrun & Hr & _).
  { by rewrite Ht. }
  exists s'. split; [exact Hrun|]. rewrite Hr, Nat2Z.id.
  do 3 f_equal. apply list_filter_iff. intros i.
  rewrite <- not_true_iff_false, is_existing_elem, Hck. split.
  - intros Hn Hi. apply Hn. by exists i.
  - intros Hn (j & Hj & Heq). apply clip_name_inj in Heq as ->. done.
Qed.

(** ** Claiming and releasing *)

(** C1, as stated, fails. Worker A claimed the job at time 0, so its
    lease expired at 120 s; at 1000 s worker B, another worker, calls
    [claim_job] on the same job: it gets [False] and nothing changes. *)
Lemma expired_lease_still_blocks_claim :
  json_field (gcs contender) "jobs/news/j1/lease.lock" "worker_id" = Some (JStr "worker-a")
  /\ json_field (gcs contender) "jobs/news/j1/lease.lock" "expires_at"
     = Some (JTime (timedelta_seconds 120))
  /\ timedelta_seconds 120 < clock contender
  /\ WORKER_ID contender = "worker-b"
  /\ lease_path (heap contender !!! 0%nat) = "jobs/news/j1/lease.lock"
  /\ claim_job 0%nat contender = (Ok false, contender).
Proof. vm_compute. repeat split; congruence. Qed.

(** C1, amended. With bucket requests that go through, [claim_job]
    succeeds exactly when no lease object exists for the job: then it
    creates the lease in the caller's name, marks the status record
    running and keeps the job as current. While a lease object exists,
    whatever its [expires_at] and whoever wrote it, [claim_job] answers
    [False] and changes nothing. *)
Theorem claim_job_succeeds_iff_lease_absent (s : proc) (r : ref) :
  faults s = [] ->
  let job := heap s !!! r in
  (gcs s !! lease_path job = None ->
     exists s',
       claim_job r s = (Ok true, s')
       /\ current_job s' = Some r
       /\ gcs s' !! lease_path job
          = Some (BJson (lease_data (WORKER_ID s) (clock s) (clock s)))
       /\ json_field (gcs s') (status_path job) "status" = Some (JStr "running")
       /\ json_field (gcs s') (status_path job) "worker_id" = Some (JStr (WORKER_ID s)))
  /\ (is_Some (gcs s !! lease_path job) -> claim_job r s = (Ok false, s)).
Proof.
  intros Hf job. split.
  - intros Hfree. rewrite claim_job_two_steps.
    rewrite claim_step_start_free by done. fold job.
    match goal with |- context [claim_step r LeaseWritten ?s1] =>
      destruct (claim_step_written r s1) as (d & h & -> & Hst & Hw & _); [done|] end.
    eexists. split; [reflexivity|]. simpl. fold job.
    split; [done|]. split.
    + rewrite lookup_insert_ne by (apply not_eq_sym, lease_status_paths_differ).
      by rewrite lookup_insert_eq.
    + unfold json_field. by rewrite lookup_insert_eq.
  - intros Htaken. rewrite claim_job_two_steps.
    by rewrite claim_step_start_taken.
Qed.

Lemma claim_job_succeeds_iff_lease_absent_witness :
  faults (scanned "worker-a" 0 one_pending_job) = []
  /\ fst (claim_job 0%nat (scanned "worker-a" 0 one_pending_job)) = Ok true
  /\ fst (claim_job 0%nat contender) = Ok false.
Proof.
  split; [reflexivity|].
  destruct (claim_job_succeeds_iff_lease_absent
              (scanned "worker-a" 0 one_pending_job) 0%nat eq_refl) as [Hfree _].
  destruct (claim_job_succeeds_iff_lease_absent contender 0%nat eq_refl) as [_ Htaken].
  split.
  - destruct Hfree as (s' & -> & _); reflexivity.
  - rewrite Htaken; [reflexivity|]. vm_compute. eauto.
Defined.

(** [release_job] gets no further than its delete call, whose keyword the
    library does not know: the [TypeError] is silenced and nothing is
    released, neither in the bucket nor in the leaser. *)
Lemma release_job_spec (s : proc) : release_job s = (Ok tt, s).
Proof. unfold release_job. run_monad. by destruct (current_job s). Qed.

(** C3, violated by the code. A worker built by [main] runs on a
    bucket with one pending job: it claims the job, [render_video_job]
    answers [False] at once (no [bucket] attribute), [run] leaves its loop
    and shuts the leaser down, whose [release_job] stops at its delete
    call: no unit was rendered, the record says running for good and the
    lease stays in the bucket, so the job is never completed.
    [release_job] deletes no lease and rewrites no record, on loss or on
    completion. With the two handles in place [render_video_job] answers
    [True] and the record says completed; the [release_job] that [run]
    calls next changes nothing, the job stays current and the next turn
    renders it again: after two turns each of its three units was rendered
    twice. *)
Theorem claimed_job_is_never_completed_nor_released :
  let as_built := snd (run decimal_float 3 (started "worker-a" 0 one_pending_job)) in
  let claimed :=
    with_handles (snd (claim_job 0%nat (scanned "worker-a" 0 one_pending_job))) in
  let done := render_video_job decimal_float 0%nat claimed in
  let released := snd (release_job (snd done)) in
  let two_turns :=
    snd (run_loop decimal_float 2 (with_handles (started "worker-a" 0 one_pending_job))) in
  (leaser_shutdown_event as_built = true
   /\ rendered as_built = []
   /\ current_job as_built = Some 0%nat
   /\ json_field (gcs as_built) "jobs/news/j1/lease.lock" "worker_id"
      = Some (JStr "worker-a")
   /\ json_field (gcs as_built) "jobs/news/j1/status.json" "status"
      = Some (JStr "running"))
  /\ fst done = Ok true
  /\ json_field (gcs (snd done)) "jobs/news/j1/status.json" "status"
     = Some (JStr "completed")
  /\ released = snd done
  /\ json_field (gcs released) "jobs/news/j1/lease.lock" "worker_id"
     = Some (JStr "worker-a")
  /\ current_job two_turns = Some 0%nat
  /\ rendered two_turns
     = [("j1", 2); ("j1", 1); ("j1", 0); ("j1", 2); ("j1", 1); ("j1", 0)]%nat.
Proof. vm_compute. repeat split; congruence. Qed.

Lemma render_video_job_skips_completed_3_of_5 :
  let resumed := with_handles (snd (claim_job 0%nat (scanned "worker-a" 0 resumed_job))) in
  exists s',
    render_video_job decimal_float 0%nat resumed = (Ok true, s')
    /\ rendered s' = [("j1", 4); ("j1", 3)]%nat.
Proof.
  intros resumed.
  destruct (render_video_job_skips_completed decimal_float resumed 0%nat
              (<["total_questions" := JInt 5]> ∅) 5%nat [0; 1; 2]%nat)
    as (s' & Hrun & Hrendered).
  - reflexivity.
  - reflexivity.
  - reflexivity.
  - reflexivity.
  - vm_compute. reflexivity.
  - reflexivity.
  - intros name.
    replace (existing_clips_of
               (list_names (gcs resumed) (job_dir_of (heap resumed !!! 0%nat) ++ "/clips/")))
      with [clip_name 0; clip_name 1; clip_name 2] by (vm_compute; reflexivity).
    rewrite !elem_of_cons, elem_of_nil. split.
    + intros [->|[->|[->|[]]]]; eexists; (split; [|reflexivity]);
        rewrite !elem_of_cons; auto.
    + intros (i & Hi & ->). rewrite !elem_of_cons, elem_of_nil in Hi.
      destruct Hi as [->|[->|[->|[]]]]; auto.
  - exists s'. split; [exact Hrun|]. rewrite Hrendered. vm_compute. reflexivity.
Qed.

(** C8, violated by the code. A worker built by [main] resumes the job
    whose clips 0, 1 and 2 of 5 are stored: [render_video_job] meets
    [self.bucket], which the worker object does not have, silences the
    error and answers [False]; no unit is rendered, neither 3 nor 4, and
    nothing is written. The loop itself does what the claim says: given
    the two handles it renders units 3 and 4 and no other. *)
Theorem resume_renders_no_unit :
  let resumed := snd (claim_job 0%nat (scanned "worker-a" 0 resumed_job)) in
  existing_clips_of (list_names (gcs resumed) "jobs/news/j1/clips/")
  = ["clip_000.mp4"; "clip_001.mp4"; "clip_002.mp4"]
  /\ json_field (gcs resumed) "jobs/news/j1/config.json" "total_questions" = Some (JInt 5)
  /\ has_bucket resumed = false
  /\ render_video_job decimal_float 0%nat resumed = (Ok false, resumed)
  /\ rendered resumed = []
  /\ fst (render_video_job decimal_float 0%nat (with_handles resumed)) = Ok true
  /\ rendered (snd (render_video_job decimal_float 0%nat (with_handles resumed)))
     = [("j1", 4); ("j1", 3)]%nat.
Proof. vm_compute. repeat split; congruence. Qed.

(** ** Telemetry outages *)

(** C10. When the telemetry query fails (the command raises or exits
    with an error, no instance is found, or the output cannot be parsed),
    both [get_gpu_utilization] return 0.0 and do not raise. That reading
    passes every below-threshold test: the low-utilization test of
    [calculate_desired_instances], the scale-down test of [should_scale]
    (and not its scale-up test), and the utilization half of the worker's
    [can_add_parallel_process]. *)
Theorem telemetry_outage_reads_as_idle
    (py_float : string -> option Q) (g : Autoscaler.gcloud) (s : proc) :
  fleet_telemetry_down py_float g ->
  worker_telemetry_down py_float s ->
  let fleet_util := Autoscaler.get_gpu_utilization py_float g in
  fleet_util = 0%Q
  /\ get_gpu_utilization py_float s = (Ok 0%Q, s)
  /\ (forall s0, exists v, get_gpu_utilization py_float s0 = (Ok v, s0))
  /\ Qltb fleet_util 30 = true
  /\ Qltb fleet_util 20 = true
  /\ Qltb 80 fleet_util = false
  /\ (forall current desired,
        Autoscaler.should_scale current desired fleet_util = true <->
        2 <= Z.abs (current - desired) \/ desired < current)
  /\ can_add_parallel_process py_float s =
     (Ok (length (filter (fun p : option Z => p = None) (active_processes s))
          <? MAX_PARALLEL_FFMPEG)%nat, s).
Proof.
  intros Hg Hs fleet_util. subst fleet_util.
  rewrite (fleet_telemetry_down_reads_zero _ _ Hg).
  pose proof (worker_telemetry_down_reads_zero _ _ Hs) as Hw.
  split; [reflexivity|]. split; [exact Hw|].
  split; [apply get_gpu_utilization_returns|].
  do 3 (split; [reflexivity|]). split.
  - intros current desired. unfold Autoscaler.should_scale.
    change (Qltb 80 0) with false. change (Qltb 0 20) with true. simpl.
    destruct (2 <=? Z.abs (current - desired)) eqn:Hd;
      [apply Z.leb_le in Hd | apply Z.leb_gt in Hd].
    + split; auto.
    + destruct (desired <? current) eqn:Hdc;
        [apply Z.ltb_lt in Hdc | apply Z.ltb_ge in Hdc];
        split; intros H; auto; try discriminate; lia.
  - unfold can_add_parallel_process. run_monad. rewrite Hw. reflexivity.
Qed.

Lemma telemetry_outage_reads_as_idle_witness :
  fleet_telemetry_down decimal_float unreachable_fleet
  /\ worker_telemetry_down decimal_float blind_worker
  /\ Autoscaler.get_gpu_utilization decimal_float unreachable_fleet = 0%Q
  /\ get_gpu_utilization decimal_float blind_worker = (Ok 0%Q, blind_worker)
  /\ can_add_parallel_process decimal_float blind_worker = (Ok true, blind_worker).
Proof.
  assert (Hg : fleet_telemetry_down decimal_float unreachable_fleet) by (left; exact I).
  assert (Hs : worker_telemetry_down decimal_float blind_worker) by exact I.
  destruct (telemetry_outage_reads_as_idle decimal_float unreachable_fleet blind_worker Hg Hs)
    as (Hf & Hw & _ & _ & _ & _ & _ & Hcan).
  split; [exact Hg|]. split; [exact Hs|]. split; [exact Hf|]. split; [exact Hw|].
  exact Hcan.
Defined.

(** ** Witness of the race *)

Lemma claim_race_exactly_one_witness :
  let schedule := [1; 0; 2; 2; 1; 0]%nat in
  let final := race_run schedule {| shared := one_pending_job; racers := three_racers |} in
  three_racers <> []
  /\ Forall (ready job_j1) three_racers
  /\ one_pending_job !! lease_path job_j1 = None
  /\ (forall i, (i < length three_racers)%nat -> (2 <= turns_of i schedule)%nat)
  /\ map r_pc (racers final) = [Returned false; Returned true; Returned false]
  /\ exists i winner winner0 before,
       racers final !! i = Some winner
       /\ three_racers !! i = Some winner0
       /\ r_pc winner = Returned true
       /\ before !! lease_path job_j1 = None
       /\ claim_job (r_job winner0) (set_gcs before (r_proc winner0))
          = (Ok true, r_proc winner)
       /\ shared final = gcs (r_proc winner)
       /\ uploads (r_proc winner)
          = status_path job_j1 :: lease_path job_j1 :: uploads (r_proc winner0)
       /\ forall j w, j <> i -> racers final !! j = Some w ->
            r_pc w = Returned false
            /\ exists w0, three_racers !! j = Some w0
                 /\ is_Some (gcs (r_proc w) !! lease_path job_j1)
                 /\ claim_job (r_job w0) (set_gcs (gcs (r_proc w)) (r_proc w0))
                    = (Ok false, r_proc w)
                 /\ uploads (r_proc w) = uploads (r_proc w0).
Proof.
  intros schedule final.
  assert (Hne : three_racers <> []) by discriminate.
  assert (Hready : Forall (ready job_j1) three_racers) by (repeat constructor).
  assert (Hfree : one_pending_job !! lease_path job_j1 = None) by reflexivity.
  assert (Hfair : forall i, (i < length three_racers)%nat -> (2 <= turns_of i schedule)%nat).
  { intros i Hi. simpl in Hi.
    destruct i as [|[|[|i]]]; [vm_compute; lia..|lia]. }
  split; [exact Hne|]. split; [exact Hready|]. split; [exact Hfree|].
  split; [exact Hfair|]. split; [vm_compute; reflexivity|].
  exact (proj2 (claim_race_exactly_one job_j1 three_racers one_pending_job schedule
                  Hne Hready Hfree Hfair)).
Defined.

End WorkerProperties.

(** * Further properties of the autoscaler *)

Section Averages.

(** Sums and averages of floats. *)

Lemma Qlen_cons (q : Q) (l : list Q) : (Qlen (q :: l) == Qlen l + 1)%Q.
Proof.
  unfold Qlen. cbn [length]. rewrite Nat2Z.inj_succ. unfold Z.succ.
  by rewrite inject_Z_plus.
Qed.

Lemma fold_Qplus_bounds (lo hi : Q) (l : list Q) : forall acc : Q,
  Forall (fun q => (lo <= q)%Q /\ (q <= hi)%Q) l ->
  (acc + lo * Qlen l <= fold_left Qplus l acc)%Q
  /\ (fold_left Qplus l acc <= acc + hi * Qlen l)%Q.
Proof.
  induction l as [|q l IH]; intros acc Hall.
  - unfold Qlen. cbn [length fold_left]. change (inject_Z (Z.of_nat 0)) with 0%Q. split; lra.
  - apply Forall_cons in Hall as [[Hlo Hhi] Hall].
    destruct (IH (acc + q)%Q Hall) as [H1 H2].
    cbn [fold_left]. rewrite Qlen_cons. split; lra.
Qed.

Lemma Qlen_pos (q : Q) (l : list Q) : (0 < Qlen (q :: l))%Q.
Proof.
  rewrite Qlen_cons. assert (0 <= Qlen l)%Q; [|lra].
  unfold Qlen. change 0%Q with (inject_Z 0). rewrite <- Zle_Qle. lia.
Qed.

Lemma average_bounds (lo hi : Q) (q : Q) (l : list Q) :
  Forall (fun q => (lo <= q)%Q /\ (q <= hi)%Q) (q :: l) ->
  (lo <= Qsum (q :: l) / Qlen (q :: l))%Q /\ (Qsum (q :: l) / Qlen (q :: l) <= hi)%Q.
Proof.
  intros Hall. pose proof (Qlen_pos q l) as Hpos.
  destruct (fold_Qplus_bounds lo hi (q :: l) 0%Q Hall) as [H1 H2].
  fold (Qsum (q :: l)) in H1, H2. split.
  - apply Qle_shift_div_l; [done|]. lra.
  - apply Qle_shift_div_r; [done|]. lra.
Qed.

Lemma parse_utilizations_bounds py_float (lo hi : Q) out l :
  (forall text q, py_float text = Some q -> (lo <= q)%Q /\ (q <= hi)%Q) ->
  parse_utilizations py_float out = Some l ->
  Forall (fun q => (lo <= q)%Q /\ (q <= hi)%Q) l.
Proof.
  intros Hp. unfold parse_utilizations. intros H.
  apply mapM_Some in H. induction H; constructor; eauto.
Qed.

Lemma percent_float_bounds (text : string) (q : Q) :
  percent_float text = Some q -> (0 <= q)%Q /\ (q <= 100)%Q.
Proof.
  unfold percent_float. destruct (decimal_float text) as [q'|]; [|done].
  destruct (Qle_bool 0 q' && Qle_bool q' 100) eqn:E; [|done].
  intros [= <-]. apply andb_true_iff in E as [H1 H2].
  by rewrite <- !Qle_bool_iff.
Qed.

End Averages.

Section MoreAutoscalerProperties.

Import Autoscaler AutoscalerLoop.

(** At the desired size no rule of [should_scale] applies. *)
Lemma should_scale_same (n : Z) (util : Q) : should_scale n n util = false.
Proof.
  unfold should_scale. rewrite Z.sub_diag. simpl.
  rewrite Z.ltb_irrefl, !andb_false_r. done.
Qed.

(** X1. [calculate_desired_instances] is monotone in the queue depth: with
    more pending jobs it never asks for fewer instances, whatever the
    utilization readings, the clock and the last scale-down on either
    side. *)
Theorem calculate_desired_instances_monotone
    (self self' : autoscaler) (now now' : datetime) (pending pending' : Z) (util util' : Q) :
  pending <= pending' ->
  calculate_desired_instances self now pending util
  <= calculate_desired_instances self' now' pending' util'.
Proof.
  intros Hle. rewrite !calculate_desired_instances_value.
  pose proof (Z.quot_le_mono pending pending' 100 ltac:(lia) Hle). lia.
Qed.

(** X2. In every cycle the desired size lies between [MIN_INSTANCES] and
    [MAX_INSTANCES]; the cycle launches at most one resize command, always
    to that desired size, and only when it differs from the size read. *)
Theorem run_scaling_cycle_resize_in_bounds
    (py_float : string -> option Q) (py_int : string -> option Z)
    (self : autoscaler) (b : bucket) (g : gcloud) (now : datetime) :
  let outcome := run_scaling_cycle py_float py_int self b g now in
  let metrics := snd (fst outcome) in
  MIN_INSTANCES <= desired_instances metrics <= MAX_INSTANCES
  /\ (snd outcome = [] \/ snd outcome = [desired_instances metrics])
  /\ (snd outcome <> [] -> desired_instances metrics <> current_instances metrics).
Proof.
  intros outcome metrics. subst metrics outcome. unfold run_scaling_cycle.
  set (pending := default 0 (get_job_counts b !! "pending")).
  set (util := get_gpu_utilization py_float g).
  set (desired := calculate_desired_instances self now pending util).
  assert (Hb : MIN_INSTANCES <= desired <= MAX_INSTANCES).
  { unfold desired. rewrite calculate_desired_instances_value.
    unfold MIN_INSTANCES, MAX_INSTANCES. lia. }
  destruct (should_scale (get_current_size py_int g 0) desired util) eqn:Hs; simpl.
  - assert (Hne : desired <> get_current_size py_int g 0).
    { intros He. rewrite <- He, should_scale_same in Hs. discriminate. }
    unfold execute_scaling, resize_mig.
    destruct (get_current_size py_int g 1 =? desired); simpl.
    + split; [exact Hb|]. split; [by left|]. done.
    + destruct (get_current_size py_int g 1 <? desired);
        destruct (resize g desired) as [r|e]; simpl;
        (split; [exact Hb|]); (split; [by right|]); intros _; exact Hne.
  - split; [exact Hb|]. split; [by left|]. done.
Qed.

(** ** The history of [run_continuous] *)

Lemma last_n_all {A} n (l : list A) : (length l <= n)%nat -> last_n n l = l.
Proof. intros H. unfold last_n. replace (length l - n)%nat with 0%nat by lia. done. Qed.

Lemma last_n_length {A} n (l : list A) : length (last_n n l) = Nat.min n (length l).
Proof. unfold last_n. rewrite length_drop. lia. Qed.

Lemma last_n_app_last_n {A} n (l k : list A) :
  last_n n (last_n n l ++ k) = last_n n (l ++ k).
Proof.
  unfold last_n. rewrite !length_app, length_drop, !drop_app, drop_drop, length_drop.
  f_equal; f_equal; lia.
Qed.

Lemma record_history_last_n history e :
  record_history history e = last_n 1000 (history ++ [e]).
Proof.
  unfold record_history. destruct (1000 <? _)%nat eqn:H; [done|].
  apply Nat.ltb_ge in H. by rewrite last_n_all.
Qed.

Lemma run_continuous_history_from py_float py_int cycles self history :
  (length history <= 1000)%nat ->
  let final := snd (fst (run_continuous py_float py_int cycles self history)) in
  final = last_n 1000 (history ++ cycle_entries py_float py_int cycles self)
  /\ (length final <= 1000)%nat.
Proof.
  intros Hlen final. subst final.
  assert (H : snd (fst (run_continuous py_float py_int cycles self history))
              = last_n 1000 (history ++ cycle_entries py_float py_int cycles self)).
  { revert self history Hlen.
    induction cycles as [|c rest IH]; intros self history Hlen.
    - simpl. by rewrite app_nil_r, last_n_all.
    - simpl.
      destruct (run_scaling_cycle py_float py_int self (c_bucket c) (c_gcloud c) (c_now c))
        as [[self' m] issued].
      specialize (IH self' (record_history history (entry_of (c_now c) m))).
      destruct (run_continuous py_float py_int rest self' _) as [[self'' h'] issued'].
      simpl in *. rewrite IH.
      + rewrite record_history_last_n, last_n_app_last_n. by rewrite <- app_assoc.
      + rewrite record_history_last_n, last_n_length. lia. }
  rewrite H. split; [done|]. rewrite last_n_length. lia.
Qed.
(** X7. The history kept by [run_continuous] is the last 1000 of the
    entries recorded, one per cycle and in order: it never holds more than
    1000, and holds all of them until then. *)
Theorem run_continuous_history py_float py_int cycles self :
  let final := snd (fst (run_continuous py_float py_int cycles self [])) in
  final = last_n 1000 (cycle_entries py_float py_int cycles self)
  /\ (length final <= 1000)%nat
  /\ length final = Nat.min 1000 (length cycles).
Proof.
  intros final. subst final.
  destruct (run_continuous_history_from py_float py_int cycles self []) as [H Hl];
    [simpl; lia|].
  simpl in H. split; [exact H|]. split; [exact Hl|].
  rewrite H, last_n_length. f_equal.
  clear. revert self. induction cycles as [|c rest IH]; intros self; [done|].
  simpl. destruct (run_scaling_cycle _ _ _ _ _ _) as [[self' m] issued].
  simpl. by rewrite IH.
Qed.

(** ** The queue monitor *)

Lemma count_one_lookup b counts name st :
  count_one b counts name !! st
  = if decide (counted_status b name = Some st)
    then (fun n => n + 1) <$> counts !! st
    else counts !! st.
Proof.
  unfold count_one, counted_status.
  destruct (endswith name "/status.json"); [|by rewrite decide_False].
  destruct (b !! name) as [[d|]|]; try by rewrite decide_False.
  destruct (default (JStr "unknown") (d !! "status")) as [|s| | |];
    try by rewrite decide_False.
  destruct (decide (Some s = Some st)) as [[= ->]|Hne].
  - destruct (counts !! st) as [n|] eqn:Hc; [|by rewrite Hc].
    by rewrite lookup_insert_eq.
  - destruct (counts !! s) as [n|] eqn:Hc; [|done].
    rewrite lookup_insert_ne; [done|congruence].
Qed.

Lemma fold_count_one_lookup b names counts st :
  fold_left (count_one b) names counts !! st
  = (fun n => n + Z.of_nat (length (filter (fun name => counted_status b name = Some st) names)))
    <$> counts !! st.
Proof.
  revert counts. induction names as [|name names IH]; intros counts; simpl.
  - destruct (counts !! st); simpl; [f_equal; lia|done].
  - rewrite IH, count_one_lookup, filter_cons.
    destruct (decide (counted_status b name = Some st)).
    + destruct (counts !! st); simpl; [f_equal|done]. rewrite Nat2Z.inj_succ. lia.
    + done.
Qed.

(** X6. [get_job_counts] files each listed [status.json] record that
    decodes under its ["status"] text: the count of each of the four known
    statuses is the number of such records, a record of any other status
    (or of none, read as ["unknown"]) is counted nowhere, and no other key
    is ever added. *)
Theorem get_job_counts_counts (b : bucket) (st : string) :
  get_job_counts b !! st
  = if decide (st ∈ counted_statuses)
    then Some (Z.of_nat (length (records_with b st)))
    else None.
Proof.
  unfold get_job_counts, records_with. rewrite fold_count_one_lookup.
  unfold initial_counts, counted_statuses.
  destruct (decide (st = "pending")) as [->|H1]; [done|].
  destruct (decide (st = "running")) as [->|H2]; [done|].
  destruct (decide (st = "completed")) as [->|H3]; [done|].
  destruct (decide (st = "failed")) as [->|H4]; [done|].
  rewrite !lookup_insert_ne, lookup_empty by done.
  rewrite decide_False; [done|].
  rewrite !elem_of_cons, elem_of_nil. tauto.
Qed.

(** ** One cycle *)

Lemma resize_mig_failed g n :
  command_failed (resize g n) -> resize_mig g n = (false, [n]).
Proof.
  unfold resize_mig, command_failed. destruct (resize g n) as [r|e]; [|done].
  intros H. apply Z.eqb_neq in H. by rewrite H.
Qed.

Lemma resize_mig_done g n :
  ~ command_failed (resize g n) -> resize_mig g n = (true, [n]).
Proof.
  unfold resize_mig, command_failed. destruct (resize g n) as [r|e]; [|tauto].
  intros H. destruct (returncode r =? 0) eqn:He; [done|].
  apply Z.eqb_neq in He. tauto.
Qed.

Lemma command_failed_dec o : command_failed o \/ ~ command_failed o.
Proof.
  unfold command_failed. destruct o as [r|e]; [|by left].
  destruct (decide (returncode r = 0)); [right|left]; tauto.
Qed.

(** X3. A cycle changes the autoscaler's time stamps only through a
    resize command that succeeded: without a command, or when the command
    fails, both stamps stay; after a successful one exactly one stamp is
    set to the time of the cycle, and which one is decided by the size
    that [execute_scaling] reads itself, by its own launch of the describe
    command: [last_scale_up] when that size is below the desired one and
    [last_scale_down] otherwise, whatever size the cycle read first. *)
Theorem run_scaling_cycle_stamps
    (py_float : string -> option Q) (py_int : string -> option Z)
    (self : autoscaler) (b : bucket) (g : gcloud) (now : datetime) :
  let outcome := run_scaling_cycle py_float py_int self b g now in
  let self' := fst (fst outcome) in
  let metrics := snd (fst outcome) in
  (snd outcome = [] -> self' = self)
  /\ (command_failed (resize g (desired_instances metrics)) -> self' = self)
  /\ (snd outcome <> [] ->
      ~ command_failed (resize g (desired_instances metrics)) ->
      self' = if get_current_size py_int g 1 <? desired_instances metrics
              then {| last_scale_up := Some now; last_scale_down := last_scale_down self |}
              else {| last_scale_up := last_scale_up self; last_scale_down := Some now |}).
Proof.
  intros outcome self' metrics. subst self' metrics outcome. unfold run_scaling_cycle.
  set (pending := default 0 (get_job_counts b !! "pending")).
  set (util := get_gpu_utilization py_float g).
  set (desired := calculate_desired_instances self now pending util).
  destruct (should_scale (get_current_size py_int g 0) desired util); simpl;
    [|by repeat split].
  unfold execute_scaling.
  destruct (get_current_size py_int g 1 =? desired) eqn:He; simpl; [by repeat split|].
  destruct (command_failed_dec (resize g desired)) as [Hf|Hok];
    [rewrite resize_mig_failed by done | rewrite resize_mig_done by done];
    destruct (get_current_size py_int g 1 <? desired) eqn:Hlt; simpl;
    repeat split; try done; try tauto;
    intros _ _; by rewrite Hlt.
Qed.

(** X4. A cycle that reads a group already at its desired size launches
    no resize command and leaves the autoscaler as it was. *)
Theorem no_resize_at_target
    (py_float : string -> option Q) (py_int : string -> option Z)
    (self : autoscaler) (b : bucket) (g : gcloud) (now : datetime) :
  let outcome := run_scaling_cycle py_float py_int self b g now in
  let metrics := snd (fst outcome) in
  current_instances metrics = desired_instances metrics ->
  snd outcome = [] /\ fst (fst outcome) = self.
Proof.
  intros outcome metrics. subst metrics outcome. unfold run_scaling_cycle.
  set (pending := default 0 (get_job_counts b !! "pending")).
  set (util := get_gpu_utilization py_float g).
  set (desired := calculate_desired_instances self now pending util).
  destruct (should_scale (get_current_size py_int g 0) desired util) eqn:Hs; [|done].
  destruct (execute_scaling py_int self g now desired) as [[ok self'] issued].
  simpl. intros Heq. rewrite Heq, should_scale_same in Hs. discriminate.
Qed.

(** X5. When every launch of the describe command in the cycle gives no
    size (it raises, exits with a non-zero code or prints what [int]
    rejects), [get_current_size] answers 0 each time and the cycle takes
    the group for empty: it never stamps a scale-down, and as soon as two
    instances or more are desired it launches a resize to the desired
    size. *)
Theorem size_outage_never_scales_down
    (py_float : string -> option Q) (py_int : string -> option Z)
    (self : autoscaler) (b : bucket) (g : gcloud) (now : datetime) :
  size_unknown py_int g ->
  let outcome := run_scaling_cycle py_float py_int self b g now in
  let metrics := snd (fst outcome) in
  current_instances metrics = 0
  /\ last_scale_down (fst (fst outcome)) = last_scale_down self
  /\ (2 <= desired_instances metrics -> snd outcome = [desired_instances metrics]).
Proof.
  intros Hu outcome metrics.
  assert (Hz : forall launch, get_current_size py_int g launch = 0).
  { intros launch. specialize (Hu launch). unfold get_current_size, no_size in *.
    destruct (describe_size g launch) as [r|e]; [|done].
    destruct Hu as [Hrc|Hp].
    - apply Z.eqb_neq in Hrc. by rewrite Hrc.
    - rewrite Hp. by destruct (_ =? _). }
  subst metrics outcome. unfold run_scaling_cycle. rewrite (Hz 0%nat).
  set (pending := default 0 (get_job_counts b !! "pending")).
  set (util := get_gpu_utilization py_float g).
  set (desired := calculate_desired_instances self now pending util).
  assert (Hb : 1 <= desired).
  { unfold desired. rewrite calculate_desired_instances_value. lia. }
  assert (Hex : exists ok self',
             execute_scaling py_int self g now desired = (ok, self', [desired])
             /\ last_scale_down self' = last_scale_down self).
  { unfold execute_scaling. rewrite (Hz 1%nat).
    assert ((0 =? desired) = false) as -> by (apply Z.eqb_neq; lia).
    assert ((0 <? desired) = true) as -> by (apply Z.ltb_lt; lia).
    destruct (command_failed_dec (resize g desired)) as [Hf|Hok];
      [rewrite resize_mig_failed by done | rewrite resize_mig_done by done];
      by eexists _, _. }
  destruct (should_scale 0 desired util) eqn:Hs; simpl.
  - destruct Hex as (ok & self' & -> & Hd). simpl. by repeat split.
  - split; [done|]. split; [done|]. intros H2.
    unfold should_scale in Hs.
    assert ((2 <=? Z.abs (0 - desired)) = true) as Ha by (apply Z.leb_le; lia).
    by rewrite Ha in Hs.
Qed.

(** ** The fleet average *)

Lemma fleet_fold_bounds py_float g instances : forall acc : Q * Z,
  (forall text q, py_float text = Some q -> (0 <= q)%Q /\ (q <= 100)%Q) ->
  0 <= snd acc -> (0 <= fst acc)%Q -> (fst acc <= 100 * inject_Z (snd acc))%Q ->
  let acc' := fold_left (add_instance_utilization py_float g) instances acc in
  0 <= snd acc' /\ (0 <= fst acc')%Q /\ (fst acc' <= 100 * inject_Z (snd acc'))%Q.
Proof.
  induction instances as [|i instances IH]; intros acc Hp Hn H0 H100; [done|].
  cbn [fold_left]. apply IH; [done|..];
    unfold add_instance_utilization;
    destruct (ssh_nvidia_smi g i) as [res|e]; try done;
    destruct (returncode res =? 0); try done;
    destruct (parse_utilizations py_float (stdout res)) as [[|u l]|] eqn:E; try done;
    cbn [fst snd].
  - lia.
  - destruct (average_bounds 0 100 u l) as [H1 H2];
      [by eapply parse_utilizations_bounds|]. lra.
  - destruct (average_bounds 0 100 u l) as [H1 H2];
      [by eapply parse_utilizations_bounds|].
    rewrite inject_Z_plus. change (inject_Z 1) with 1%Q. lra.
Qed.

(** X8. When every number read from [nvidia-smi] is a percentage, so is
    the fleet average of [MIGController.get_gpu_utilization], whichever
    instances answer. *)
Theorem fleet_gpu_utilization_is_a_percentage
    (py_float : string -> option Q) (g : gcloud) :
  (forall text q, py_float text = Some q -> (0 <= q)%Q /\ (q <= 100)%Q) ->
  (0 <= get_gpu_utilization py_float g)%Q /\ (get_gpu_utilization py_float g <= 100)%Q.
Proof.
  intros Hp. unfold get_gpu_utilization.
  destruct (list_instances g) as [r|e]; [|split; lra].
  destruct (negb (returncode r =? 0)); [split; lra|].
  destruct (stripped_lines (stdout r)) as [|i instances]; [split; lra|].
  pose proof (fleet_fold_bounds py_float g (i :: instances) (0%Q, 0) Hp) as H.
  cbn [fst snd] in H. specialize (H ltac:(lia) ltac:(lra) ltac:(change (inject_Z 0) with 0%Q; lra)).
  destruct (fold_left _ _ _) as [total valid]. cbn [fst snd] in H.
  destruct H as (Hn & H0 & H100).
  destruct (0 <? valid) eqn:Hv; [|split; lra].
  apply Z.ltb_lt in Hv.
  assert (Hpos : (0 < inject_Z valid)%Q).
  { change 0%Q with (inject_Z 0). by rewrite <- Zlt_Qlt. }
  split.
  - apply Qle_shift_div_l; [done|]. lra.
  - apply Qle_shift_div_r; [done|]. lra.
Qed.


(** ** Instances *)

Lemma calculate_desired_instances_monotone_witness :
  150 <= 450
  /\ calculate_desired_instances scaled_down_10s_ago (timedelta_seconds 1000) 150 5%Q
     <= calculate_desired_instances
          {| last_scale_up := None; last_scale_down := None |} 0 450 95%Q.
Proof.
  split; [lia|]. apply calculate_desired_instances_monotone. lia.
Defined.

Lemma no_resize_at_target_witness :
  current_instances
    (snd (fst (run_scaling_cycle decimal_float decimal_int scaled_down_10s_ago
                 (∅ : bucket) fleet_of_one (timedelta_seconds 1000))))
  = desired_instances
      (snd (fst (run_scaling_cycle decimal_float decimal_int scaled_down_10s_ago
                   (∅ : bucket) fleet_of_one (timedelta_seconds 1000))))
  /\ snd (run_scaling_cycle decimal_float decimal_int scaled_down_10s_ago
            (∅ : bucket) fleet_of_one (timedelta_seconds 1000)) = [].
Proof.
  assert (H : current_instances
                (snd (fst (run_scaling_cycle decimal_float decimal_int scaled_down_10s_ago
                             (∅ : bucket) fleet_of_one (timedelta_seconds 1000))))
              = desired_instances
                  (snd (fst (run_scaling_cycle decimal_float decimal_int
                               scaled_down_10s_ago (∅ : bucket) fleet_of_one
                               (timedelta_seconds 1000)))))
    by (vm_compute; reflexivity).
  split; [exact H|].
  exact (proj1 (no_resize_at_target decimal_float decimal_int scaled_down_10s_ago
                  (∅ : bucket) fleet_of_one (timedelta_seconds 1000) H)).
Defined.

Lemma size_outage_never_scales_down_witness :
  size_unknown decimal_int unreachable_fleet
  /\ current_instances
       (snd (fst (run_scaling_cycle decimal_float decimal_int scaled_down_10s_ago
                    (∅ : bucket) unreachable_fleet (timedelta_seconds 1000)))) = 0.
Proof.
  assert (H : size_unknown decimal_int unreachable_fleet) by (intros launch; exact I).
  split; [exact H|].
  exact (proj1 (size_outage_never_scales_down decimal_float decimal_int
                  scaled_down_10s_ago (∅ : bucket) unreachable_fleet
                  (timedelta_seconds 1000) H)).
Defined.

Lemma fleet_gpu_utilization_is_a_percentage_witness :
  (0 <= get_gpu_utilization percent_float idle_fleet_of_five)%Q
  /\ (get_gpu_utilization percent_float idle_fleet_of_five <= 100)%Q.
Proof.
  exact (fleet_gpu_utilization_is_a_percentage percent_float idle_fleet_of_five
           percent_float_bounds).
Defined.


End MoreAutoscalerProperties.

(** * Further properties of the worker, and the claims about its threads *)

Section MoreWorkerProperties.
Import CloudWorker WorkerFrames WorkerScan WorkerErrors WorkerEncoder.

Ltac run_monad :=
  unfold mbind, M_bind, bind, get, ret, modify, raise, try_except, utcnow,
    read_job, write_job; simpl.

Section Keeps.
Context {V : Type} (view : proc -> V).

Lemma keeps_ret {A} (a : A) : keeps view (mret a).
Proof. by intros s. Qed.

Lemma keeps_raise {A} e : keeps view (raise e : M A).
Proof. by intros s. Qed.

Lemma keeps_get : keeps view get.
Proof. by intros s. Qed.

Lemma keeps_utcnow : keeps view utcnow.
Proof. by intros s. Qed.

Lemma keeps_read_job r : keeps view (read_job r).
Proof. by intros s. Qed.

Lemma keeps_modify f : (forall s, view (f s) = view s) -> keeps view (modify f).
Proof. intros H s. apply H. Qed.

Lemma keeps_bind {A B} (m : M A) (k : A -> M B) :
  keeps view m -> (forall a, keeps view (k a)) -> keeps view (m ≫= k).
Proof.
  intros Hm Hk s. unfold mbind, M_bind, bind. specialize (Hm s).
  destruct (m s) as [[a|e] s1]; simpl in *; [|done].
  by rewrite Hk.
Qed.

Lemma keeps_try_except {A} (m : M A) (h : exn -> M A) :
  keeps view m -> (forall e, keeps view (h e)) -> keeps view (try_except m h).
Proof.
  intros Hm Hh s. unfold try_except. specialize (Hm s).
  destruct (m s) as [[a|e] s1]; simpl in *; [done|].
  by rewrite Hh.
Qed.

Lemma keeps_foldM {A B} (f : B -> A -> M B) acc l :
  (forall acc x, keeps view (f acc x)) -> keeps view (foldM f acc l).
Proof.
  intros Hf. revert acc. induction l as [|x l IH]; intros acc; simpl.
  - apply keeps_ret.
  - apply keeps_bind; [apply Hf|]. intros acc'. apply IH.
Qed.
End Keeps.

Ltac keeps_step :=
  lazymatch goal with
  | |- keeps _ (mret _) => apply keeps_ret
  | |- keeps _ (ret _) => apply keeps_ret
  | |- keeps _ (raise _) => apply keeps_raise
  | |- keeps _ get => apply keeps_get
  | |- keeps _ utcnow => apply keeps_utcnow
  | |- keeps _ (read_job _) => apply keeps_read_job
  | |- keeps _ (modify _) => apply keeps_modify; intros ?; reflexivity
  | |- keeps _ (_ ≫= _) => apply keeps_bind; [|intros ?]
  | |- keeps _ (try_except _ _) => apply keeps_try_except; [|intros ?]
  | |- keeps _ (match ?x with _ => _ end) => destruct x
  end.

Ltac keeps_auto := repeat keeps_step.

Lemma keeps_request_ws : keeps worker_side request.
Proof. intros s. unfold request. by destruct (faults s) as [|[] f]. Qed.

Lemma keeps_write_job_ws r j : keeps worker_side (write_job r j).
Proof. unfold write_job. keeps_auto. Qed.

Lemma keeps_new_job_ws j : keeps worker_side (new_job j).
Proof. by intros s. Qed.


Lemma keeps_upload_ws name c co : keeps worker_side (upload_from_string name c co).
Proof. unfold upload_from_string. keeps_auto. apply keeps_request_ws. Qed.

Lemma keeps_delete_ws name kw : keeps worker_side (delete_blob name kw).
Proof. unfold delete_blob. keeps_auto. apply keeps_request_ws. Qed.

Lemma keeps_download_ws name : keeps worker_side (download_as_text name).
Proof. unfold download_as_text. keeps_auto. apply keeps_request_ws. Qed.

Lemma keeps_list_blobs_ws pre : keeps worker_side (list_blobs pre).
Proof. unfold list_blobs. keeps_auto. apply keeps_request_ws. Qed.

Lemma keeps_update_status_data_ws r ch : keeps worker_side (update_status_data r ch).
Proof. unfold update_status_data. keeps_auto. apply keeps_write_job_ws. Qed.

Lemma keeps_scan_for_jobs_ws : keeps worker_side scan_for_jobs.
Proof.
  unfold scan_for_jobs. keeps_auto; [apply keeps_list_blobs_ws|].
  apply keeps_foldM. intros acc x. unfold scan_one, json_loads.
  keeps_auto; try apply keeps_download_ws; try apply keeps_new_job_ws.
Qed.

Lemma keeps_claim_job_ws r : keeps worker_side (claim_job r).
Proof.
  unfold claim_job, claim_lease, claim_status.
  keeps_auto; try apply keeps_upload_ws; try apply keeps_update_status_data_ws;
    try apply keeps_write_job_ws.
Qed.

Lemma keeps_claim_first_ws l : keeps worker_side (claim_first l).
Proof.
  induction l as [|r l IH]; simpl; keeps_auto; [apply keeps_claim_job_ws|apply IH].
Qed.

Lemma keeps_release_job_ws : keeps worker_side release_job.
Proof.
  unfold release_job.
  keeps_auto; try apply keeps_upload_ws; try apply keeps_update_status_data_ws;
    try apply keeps_delete_ws.
Qed.

Lemma keeps_shutdown_ws : keeps worker_side shutdown.
Proof. unfold shutdown. keeps_auto. apply keeps_release_job_ws. Qed.

Lemma keeps_cleanup_ws : keeps worker_side cleanup_completed_processes.
Proof. unfold cleanup_completed_processes. keeps_auto. Qed.


Lemma worker_side_has_bucket s s' :
  worker_side s' = worker_side s -> has_bucket s' = has_bucket s.
Proof. unfold worker_side. congruence. Qed.

Lemma worker_side_set_clock t s : worker_side (set_clock t s) = worker_side s.
Proof. done. Qed.

Lemma run_turn_without_bucket py_float s :
  has_bucket s = false ->
  worker_side (snd (run_turn py_float s)) = worker_side s.
Proof.
  intros Hb. unfold run_turn, try_except. unfold mbind, M_bind, bind.
  unfold sleep, modify, ret, get.
  pose proof (keeps_cleanup_ws s) as H1.
  destruct (cleanup_completed_processes s) as [[[]|e] s1]; simpl in H1;
    cbn beta iota; [|simpl; rewrite ?worker_side_set_clock; congruence].
  assert (Hb1 : has_bucket s1 = false)
    by (by rewrite (worker_side_has_bucket _ _ H1)).
  destruct (current_job s1) as [r|] eqn:Hc1.
  - rewrite Hc1. by rewrite render_video_job_without_bucket by done.
  - pose proof (keeps_scan_for_jobs_ws s1) as H2.
    destruct (scan_for_jobs s1) as [[jobs|e] s2]; simpl in H2;
      cbn beta iota; [|simpl; rewrite ?worker_side_set_clock; congruence].
    pose proof (keeps_claim_first_ws jobs s2) as H3.
    destruct (claim_first jobs s2) as [[[]|e] s3]; simpl in H3;
      cbn beta iota; [|simpl; rewrite ?worker_side_set_clock; congruence].
    assert (Hb3 : has_bucket s3 = false).
    { rewrite (worker_side_has_bucket s1 s3); [done|congruence]. }
    destruct (current_job s3) as [r|] eqn:Hc3.
    + rewrite render_video_job_without_bucket by done. simpl. congruence.
    + simpl. rewrite ?worker_side_set_clock. congruence.
Qed.

Lemma run_loop_without_bucket py_float turns s :
  has_bucket s = false ->
  worker_side (snd (run_loop py_float turns s)) = worker_side s.
Proof.
  revert s. induction turns as [|n IH]; intros s Hb; simpl.
  - done.
  - unfold mbind, M_bind, bind, get. destruct (shutdown_event s); [done|].
    pose proof (run_turn_without_bucket py_float s Hb) as H1.
    destruct (run_turn py_float s) as [[[]|e] s1]; simpl in H1; try done.
    rewrite IH; [done|]. by rewrite (worker_side_has_bucket _ _ H1).
Qed.

(** X17. A worker object without the [bucket] attribute, as
    [GPUWorker.__init__] leaves it, renders no unit: for every bucket,
    every pattern of request failures and however long [run] goes on, the
    record of rendered units is as before; [run] never sets the worker's
    own shutdown event either. *)
Theorem as_built_worker_never_renders
    (py_float : string -> option Q) (turns : nat) (s : proc) :
  has_bucket s = false ->
  let s' := snd (run py_float turns s) in
  rendered s' = rendered s /\ shutdown_event s' = shutdown_event s.
Proof.
  intros Hb s'. subst s'.
  assert (H : worker_side (snd (run py_float turns s)) = worker_side s).
  { unfold run. unfold mbind, M_bind, bind.
    pose proof (run_loop_without_bucket py_float turns s Hb) as H1.
    destruct (run_loop py_float turns s) as [[[]|e] s1]; simpl in H1; try done.
    rewrite keeps_shutdown_ws. done. }
  unfold worker_side in H. split; congruence.
Qed.

(** ** The two threads of a worker built by [main] *)









Lemma set_faults_same s : set_faults (faults s) s = s.
Proof. by destruct s. Qed.

Lemma request_cases s :
  exists res f, request s = (res, set_faults f s) /\ (faults s = [] -> res = Ok tt /\ f = []).
Proof.
  unfold request. destruct (faults s) as [|[] f] eqn:Hf.
  - exists (Ok tt), [].
    replace (set_faults [] s) with s by (by rewrite <- Hf, set_faults_same). done.
  - by exists (Raise TransientStoreError), f.
  - by exists (Ok tt), f.
Qed.

Lemma scan_one_spec jobs name s :
  exists f,
    (faults s = [] -> f = [])
    /\ ((scan_one jobs name s = (Ok jobs, set_faults f s)
         /\ (faults s = [] -> pending_record (gcs s) name = None))
        \/ exists d,
             pending_record (gcs s) name = Some d
             /\ scan_one jobs name s
                = (Ok (jobs ++ [fresh (dom (heap s))])%list,
                   set_heap (<[fresh (dom (heap s)) := job_of_name name d]> (heap s))
                     (set_faults f s))).
Proof.
  unfold scan_one, pending_record.
  destruct (endswith name "/status.json"); cbn [andb];
    [|exists (faults s); rewrite set_faults_same; split; [done|left; split; [reflexivity|done]]].
  destruct (4 <=? length (split "/" name))%nat; cbn [andb];
    [|exists (faults s); rewrite set_faults_same; split; [done|left; split; [reflexivity|done]]].
  unfold download_as_text, json_loads, new_job. run_monad.
  destruct (request_cases s) as (res & f & -> & Hres).
  exists f. split; [intros H; by apply Hres|].
  destruct res as [[]|e]; simpl.
  2:{ left. split; [done|]. intros H. by destruct (Hres H). }
  destruct (gcs s !! name) as [[d|]|]; simpl; try (left; split; [reflexivity|done]).
  destruct (d !! "status") as [[| st | | |]|]; simpl; try (left; split; [reflexivity|done]).
  destruct (String.eqb st "pending"); simpl; [|left; split; [reflexivity|done]].
  right. by exists d.
Qed.


Lemma scan_fold_spec names : forall jobs s,
  exists jobs' s',
    foldM scan_one jobs names s = (Ok (jobs ++ jobs')%list, s')
    /\ gcs s' = gcs s /\ uploads s' = uploads s /\ current_job s' = current_job s
    /\ heap s ⊆ heap s'
    /\ Forall (fun r => (r ∉ dom (heap s))
                /\ exists name d, name ∈ names
                     /\ pending_record (gcs s) name = Some d
                     /\ heap s' !! r = Some (job_of_name name d)) jobs'
    /\ (faults s = [] ->
          faults s' = []
          /\ Forall2 (fun r j => heap s' !! r = Some j) jobs'
               (pending_jobs_of (gcs s) names)).
Proof.
  induction names as [|name names IH]; intros jobs s.
  - exists [], s. rewrite app_nil_r. do 5 (split; [done|]). split; [done|].
    intros H0. split; [done|]. constructor.
  - cbn [foldM]. unfold mbind, M_bind, bind.
    destruct (scan_one_spec jobs name s) as (f & Hf & [[E Hn] | (d & Hp & E)]); rewrite E.
    + destruct (IH jobs (set_faults f s))
        as (jobs' & s' & -> & Hg & Hu & Hc & Hh & Hall & Hex).
      exists jobs', s'. simpl in *. do 5 (split; [done|]). split.
      * eapply Forall_impl; [exact Hall|]. intros r (Hr & n & d & Hin & Hp & Hl).
        split; [done|]. exists n, d. split; [by right|done].
      * intros H0. destruct Hex as [Hf' H2]; [by rewrite Hf|]. split; [done|].
        unfold pending_jobs_of. cbn [omap]. rewrite (Hn H0). exact H2.
    + set (r0 := fresh (dom (heap s))) in *.
      assert (Hfresh : heap s !! r0 = None)
        by (apply not_elem_of_dom, is_fresh).
      destruct (IH (jobs ++ [r0])%list
                  (set_heap (<[r0 := job_of_name name d]> (heap s)) (set_faults f s)))
        as (jobs' & s' & -> & Hg & Hu & Hc & Hh & Hall & Hex).
      exists (r0 :: jobs'), s'. simpl in *.
      assert (Hsub : heap s ⊆ heap s').
      { etrans; [|exact Hh]. by apply insert_subseteq. }
      assert (Hr0 : heap s' !! r0 = Some (job_of_name name d)).
      { eapply lookup_weaken; [|exact Hh]. apply lookup_insert_eq. }
      split; [by rewrite <- app_assoc|]. do 4 (split; [done|]). split.
      * constructor.
        -- split; [apply is_fresh|]. exists name, d. split; [by left|done].
        -- eapply Forall_impl; [exact Hall|]. intros r (Hr & n & d' & Hin & Hp' & Hl).
           split.
           ++ intros Hd. apply Hr. rewrite dom_insert. apply elem_of_union. by right.
           ++ exists n, d'. split; [by right|done].
      * intros H0. destruct Hex as [Hf' H2]; [by rewrite Hf|]. split; [done|].
        unfold pending_jobs_of. cbn [omap]. rewrite Hp. simpl.
        constructor; [done|]. exact H2.
Qed.

(** X9. [scan_for_jobs] never raises and only reads: whatever requests
    fail, it returns, and the bucket, the log of uploads and the current
    job are as before; the job objects it had are untouched, and every job
    it returns is a new object built from a stored record that says
    pending. Leases are not consulted. *)
Theorem scan_for_jobs_read_only (s : proc) :
  exists jobs s',
    scan_for_jobs s = (Ok jobs, s')
    /\ gcs s' = gcs s /\ uploads s' = uploads s /\ current_job s' = current_job s
    /\ heap s ⊆ heap s'
    /\ Forall (fun r => (r ∉ dom (heap s))
                /\ exists name d,
                     pending_record (gcs s) name = Some d
                     /\ heap s' !! r = Some (job_of_name name d)) jobs.
Proof.
  unfold scan_for_jobs, list_blobs. run_monad.
  destruct (request_cases s) as (res & f & -> & _).
  destruct res as [[]|e]; simpl.
  2:{ exists [], (set_faults f s). do 5 (split; [done|]). constructor. }
  destruct (scan_fold_spec (list_names (gcs s) (JOBS_PREFIX ++ "/")) [] (set_faults f s))
    as (jobs & s' & E & Hg & Hu & Hc & Hh & Hall & _).
  simpl in *. rewrite E. exists jobs, s'. do 5 (split; [done|]).
  eapply Forall_impl; [exact Hall|]. intros r (Hr & n & d & _ & Hp & Hl).
  split; [done|]. by exists n, d.
Qed.

(** X10. When its requests go through, [scan_for_jobs] returns one job
    per [status.json] record at depth four or more that decodes and says
    pending, in the order of the listing, named after the second and third
    components of the record's path. *)
Theorem scan_for_jobs_lists_pending_records (s : proc) :
  faults s = [] ->
  exists jobs s',
    scan_for_jobs s = (Ok jobs, s')
    /\ Forall2 (fun r j => heap s' !! r = Some j) jobs
         (pending_jobs_of (gcs s) (list_names (gcs s) (JOBS_PREFIX ++ "/")))
    /\ faults s' = [].
Proof.
  intros Hf. unfold scan_for_jobs, list_blobs. run_monad.
  rewrite request_ok by done. simpl.
  destruct (scan_fold_spec (list_names (gcs s) (JOBS_PREFIX ++ "/")) [] s)
    as (jobs & s' & E & _ & _ & _ & _ & _ & Hex).
  simpl in E. rewrite E. exists jobs, s'. split; [done|].
  destruct (Hex Hf) as [Hf' H2]. by split.
Qed.



Lemma request_fault s f :
  faults s = true :: f -> request s = (Raise TransientStoreError, set_faults f s).
Proof. unfold request. by intros ->. Qed.

Lemma request_pass s f :
  faults s = false :: f -> request s = (Ok tt, set_faults f s).
Proof. unfold request. by intros ->. Qed.

Lemma upload_fault name c co s f :
  faults s = true :: f ->
  upload_from_string name c co s = (Raise TransientStoreError, set_faults f s).
Proof.
  intros Hf. unfold upload_from_string. run_monad. by rewrite (request_fault _ _ Hf).
Qed.

Lemma upload_pass name c co s f :
  faults s = false :: f -> (co = false \/ gcs s !! name = None) ->
  upload_from_string name c co s =
  (Ok tt, set_uploads (name :: uploads s)
            (set_gcs (<[name := c]> (gcs s)) (set_faults f s))).
Proof.
  intros Hf Hc. unfold upload_from_string. run_monad.
  rewrite (request_pass _ _ Hf). simpl.
  destruct Hc as [->| ->]; [reflexivity|].
  rewrite bool_decide_eq_false_2, andb_false_r; [reflexivity|].
  intros [? ?]; discriminate.
Qed.

(** X11. A claim whose lease upload goes through and whose status upload
    fails answers [False] and holds no job, yet the lease it created stays
    in the bucket: from then on every claim of that job, by any worker,
    answers [False]. *)
Theorem claim_job_failed_status_upload_orphans_lease (s : proc) (r : ref) (f : list bool) :
  let job := heap s !!! r in
  faults s = false :: true :: f ->
  gcs s !! lease_path job = None ->
  exists s',
    claim_job r s = (Ok false, s')
    /\ current_job s' = current_job s
    /\ gcs s' = <[lease_path job := BJson (lease_data (WORKER_ID s) (clock s) (clock s))]> (gcs s)
    /\ forall s2 r2,
         faults s2 = [] -> gcs s2 = gcs s' ->
         lease_path (heap s2 !!! r2) = lease_path job ->
         claim_job r2 s2 = (Ok false, s2).
Proof.
  intros job Hf Hfree. subst job.
  assert (E : exists s',
             claim_job r s = (Ok false, s')
             /\ current_job s' = current_job s
             /\ gcs s' = <[lease_path (heap s !!! r) :=
                             BJson (lease_data (WORKER_ID s) (clock s) (clock s))]> (gcs s)).
  { unfold claim_job, claim_lease, claim_status. run_monad.
    rewrite (upload_pass _ _ _ _ _ Hf) by auto. simpl.
    match goal with |- context [update_status_data r ?ch ?s1] =>
      destruct (update_status_data_spec r ch s1) as (d & h & -> & _ & _) end.
    rewrite (upload_fault _ _ _ _ f) by done. simpl.
    eexists. split; [reflexivity|]. by simpl. }
  destruct E as (s' & E & Hc & Hg). exists s'. do 3 (split; [done|]).
  intros s2 r2 Hf2 Hg2 Hp. rewrite claim_job_two_steps.
  rewrite claim_step_start_taken; [done..|].
  rewrite Hg2, Hp, Hg. rewrite lookup_insert_eq. eauto.
Qed.

(** X12. [renew_lease] overwrites the lease object without reading it:
    whatever is stored under the lease path, it is replaced by a lease in
    the caller's name that expires [2 * LEASE_RENEWAL_INTERVAL] seconds
    from now and whose [claimed_at] is the expiry the job object held
    before. *)
Theorem renew_lease_overwrites_any_lease (s : proc) (r : ref) (t : datetime) :
  let job := heap s !!! r in
  faults s = [] -> current_job s = Some r -> lease_expiry job = Some t ->
  exists s',
    renew_lease s = (Ok true, s')
    /\ gcs s' = <[lease_path job := BJson (lease_data (WORKER_ID s) t (clock s))]> (gcs s)
    /\ lease_expiry (heap s' !!! r)
       = Some (clock s + timedelta_seconds (LEASE_RENEWAL_INTERVAL * 2))
    /\ current_job s' = Some r.
Proof.
  intros job Hf Hc Ht. subst job. unfold renew_lease. run_monad. rewrite Hc.
  run_monad. rewrite Ht. rewrite upload_ok by auto. simpl. rewrite Hc.
  eexists. split; [reflexivity|]. simpl. split; [done|]. split; [|done].
  rewrite lookup_total_insert_eq. simpl. do 2 f_equal.
Qed.


(** X14. [release_job] never raises and releases nothing: its delete call
    passes a keyword that the library's [Blob.delete] does not take, the
    [TypeError] is silenced, and the process and the bucket are exactly as
    before; the lease stays, the record is not rewritten and the job
    stays current. *)
Theorem release_job_releases_nothing (s : proc) :
  release_job s = (Ok tt, s)
  /\ (forall r, current_job s = Some r ->
        delete_blob (lease_path (heap s !!! r)) true s = (Raise TypeError, s)).
Proof.
  split; [|done]. unfold release_job. run_monad. by destruct (current_job s).
Qed.

(** X15. Claim, then release: a job that was claimed stays leased. After
    a successful [claim_job] and the holder's [release_job], the holder
    still has the job as current, and a claim of that job by any worker,
    its requests going through, answers [False] and changes nothing. *)
Theorem released_job_cannot_be_claimed (s : proc) (r : ref) (s2 : proc) (r2 : ref) :
  let job := heap s !!! r in
  faults s = [] -> gcs s !! lease_path job = None ->
  faults s2 = [] ->
  channel (heap s2 !!! r2) = channel job ->
  job_id (heap s2 !!! r2) = job_id job ->
  let released := snd (release_job (snd (claim_job r s))) in
  fst (claim_job r s) = Ok true
  /\ current_job released = Some r
  /\ claim_job r2 (set_gcs (gcs released) s2) = (Ok false, set_gcs (gcs released) s2).
Proof.
  intros job Hf Hfree Hf2 Hch Hid released. subst released job.
  assert (Hl : lease_path (heap s2 !!! r2) = lease_path (heap s !!! r))
    by (unfold lease_path, job_dir_of; by rewrite Hch, Hid).
  rewrite claim_job_two_steps.
  rewrite claim_step_start_free by done.
  match goal with |- context [claim_step r LeaseWritten ?s1] =>
    destruct (claim_step_written r s1) as (d & h & -> & _); [done|] end.
  rewrite release_job_spec. cbn [fst snd]. split; [done|]. split; [done|].
  apply claim_job_taken; [done|]. simpl. rewrite Hl.
  rewrite lookup_insert_ne by (apply not_eq_sym, lease_status_paths_differ).
  rewrite lookup_insert_eq. eauto.
Qed.

(** X13. A turn of the renewal thread whose lease upload fails releases
    nothing: [renew_lease] answers [False], the [release_job] that
    follows stops at its delete call, and after the turn the job is still
    current and the bucket unchanged; only the failed request is spent
    and the clock is [LEASE_RENEWAL_INTERVAL] seconds on. *)
Theorem failed_renewal_releases_nothing
    (s : proc) (r : ref) (t : datetime) (f : list bool) :
  let job := heap s !!! r in
  faults s = true :: f -> current_job s = Some r -> lease_expiry job = Some t ->
  fst (renew_lease s) = Ok false
  /\ renewal_turn s
     = (Ok tt,
        set_clock (clock s + timedelta_seconds LEASE_RENEWAL_INTERVAL) (set_faults f s)).
Proof.
  intros job Hf Hc Ht. subst job.
  assert (E : renew_lease s = (Ok false, set_faults f s)).
  { unfold renew_lease. run_monad. rewrite Hc. run_monad. rewrite Ht.
    by rewrite (upload_fault _ _ _ _ f). }
  split; [by rewrite E|].
  unfold renewal_turn. unfold mbind, M_bind, bind, get. rewrite Hc, E.
  by rewrite release_job_spec.
Qed.

(** X16. [shutdown] never raises and leaves the leaser's shutdown event
    set, whether or not the release it attempts succeeds: the renewal loop
    then ends without doing anything. *)
Theorem shutdown_stops_renewal_loop (s : proc) (turns : nat) :
  let s' := snd (shutdown s) in
  fst (shutdown s) = Ok tt
  /\ leaser_shutdown_event s' = true
  /\ renewal_loop turns s' = (Ok tt, s').
Proof.
  intros s'. subst s'.
  assert (H : fst (shutdown s) = Ok tt /\ leaser_shutdown_event (snd (shutdown s)) = true).
  { unfold shutdown. run_monad. destruct (current_job s) as [r|] eqn:Hc; [|done].
    by rewrite release_job_spec. }
  destruct H as [H1 H2]. do 2 (split; [done|]).
  destruct turns as [|n]; [done|]. cbn [renewal_loop]. run_monad. by rewrite H2.
Qed.

Lemma render_video_job_config_error_spec py_float (s : proc) (r : ref) (e : exn) :
  let job := heap s !!! r in
  faults s = [] -> has_bucket s = true ->
  config_error (gcs s !! (job_dir_of job ++ "/config.json")) = Some e ->
  exists d h,
    render_video_job py_float r s
    = (Ok false,
       set_uploads (status_path job :: uploads s)
         (set_gcs (<[status_path job := BJson d]> (gcs s)) (set_heap h s)))
    /\ d !! "status" = Some (JStr "failed")
    /\ d !! "error" = Some (JStr (exn_message e))
    /\ job_id (h !!! r) = job_id job /\ channel (h !!! r) = channel job.
Proof.
  intros job Hf Hb He. subst job. unfold render_video_job. run_monad.
  rewrite self_bucket_ok by done. unfold download_as_text. run_monad.
  rewrite request_ok by done. simpl.
  destruct (gcs s !! (job_dir_of (heap s !!! r) ++ "/config.json")) as [[cfg|]|];
    simpl in He; [discriminate|injection He as <-..]; simpl;
    rewrite self_bucket_ok by done;
    (match goal with |- context [update_status_data r ?ch ?s1] =>
      destruct (update_status_data_spec r ch s1) as (d & h & -> & Hd & Hh) end);
    (rewrite upload_ok by auto); simpl;
    exists d, h; (split; [reflexivity|]);
    (split; [by apply Hd|]); (split; [by apply Hd|]);
    apply Hh.
Qed.

(** X18. With the [bucket] attribute in place, a job whose [config.json]
    is missing or does not decode is marked failed: [render_video_job]
    answers [False], renders nothing, and its only upload is the status
    record, now saying failed with the text of the exception. *)
Theorem render_video_job_marks_unreadable_config_failed
    (py_float : string -> option Q) (s : proc) (r : ref) (e : exn) :
  let job := heap s !!! r in
  faults s = [] -> has_bucket s = true ->
  config_error (gcs s !! (job_dir_of job ++ "/config.json")) = Some e ->
  exists s',
    render_video_job py_float r s = (Ok false, s')
    /\ json_field (gcs s') (status_path job) "status" = Some (JStr "failed")
    /\ json_field (gcs s') (status_path job) "error" = Some (JStr (exn_message e))
    /\ rendered s' = rendered s
    /\ uploads s' = status_path job :: uploads s.
Proof.
  intros job Hf Hb He.
  destruct (render_video_job_config_error_spec py_float s r e Hf Hb He)
    as (d & h & -> & Hst & Her & _).
  eexists. split; [reflexivity|]. simpl. unfold json_field.
  rewrite lookup_insert_eq. by repeat split.
Qed.

(** X20. With the shutdown event set and at least one unit to go through,
    [render_video_job] answers [False] and changes nothing: the job is
    marked neither failed nor completed. *)
Theorem render_video_job_interrupted_changes_nothing
    (py_float : string -> option Q) (s : proc) (r : ref) (config : dict) (total : Z) :
  let job := heap s !!! r in
  faults s = [] -> shutdown_event s = true ->
  has_bucket s = true -> has_client s = true ->
  gcs s !! (job_dir_of job ++ "/config.json") = Some (BJson config) ->
  default (JInt 1) (config !! "total_questions") = JInt total ->
  1 <= total ->
  render_video_job py_float r s = (Ok false, s).
Proof.
  intros job Hf Hs Hb Hcl Hc Ht Hpos. subst job. unfold render_video_job. run_monad.
  rewrite self_bucket_ok by done.
  rewrite (download_ok _ _ _ Hf Hc). simpl.
  rewrite self_bucket_ok by done. simpl.
  rewrite self_client_ok by done. simpl.
  rewrite self_bucket_ok by done. simpl.
  rewrite list_blobs_ok by done. rewrite Ht.
  destruct (Z.to_nat total) as [|n] eqn:En; [lia|].
  cbn [seq render_clips]. run_monad. by rewrite Hs.
Qed.

(** X21. A job whose [total_questions] is zero or negative is completed
    at once: no unit is rendered, the manifest is written and the record
    says completed, even while the shutdown event is set. *)
Theorem render_video_job_without_units_completes
    (py_float : string -> option Q) (s : proc) (r : ref) (config : dict) (total : Z) :
  let job := heap s !!! r in
  faults s = [] -> has_bucket s = true -> has_client s = true ->
  gcs s !! (job_dir_of job ++ "/config.json") = Some (BJson config) ->
  default (JInt 1) (config !! "total_questions") = JInt total ->
  total <= 0 ->
  exists s',
    render_video_job py_float r s = (Ok true, s')
    /\ rendered s' = rendered s
    /\ json_field (gcs s') (status_path job) "status" = Some (JStr "completed")
    /\ is_Some (gcs s' !! (job_dir_of job ++ "/_MANIFEST.json")).
Proof.
  intros job Hf Hb Hcl Hc Ht Hneg. subst job. unfold render_video_job. run_monad.
  rewrite self_bucket_ok by done.
  rewrite (download_ok _ _ _ Hf Hc). simpl.
  rewrite self_bucket_ok by done. simpl.
  rewrite self_client_ok by done. simpl.
  rewrite self_bucket_ok by done. simpl.
  rewrite list_blobs_ok by done. rewrite Ht.
  replace (Z.to_nat total) with 0%nat by lia.
  cbn [seq render_clips]. unfold sleep. run_monad.
  match goal with |- context [get_gpu_utilization py_float ?s2] =>
    destruct (get_gpu_utilization_returns py_float s2) as [v ->] end.
  rewrite self_bucket_ok by done.
  rewrite upload_ok by auto.
  rewrite self_bucket_ok by done.
  match goal with |- context [update_status_data r ?ch ?s3] =>
    destruct (update_status_data_spec r ch s3) as (d & h & -> & Hd & Hh) end.
  rewrite upload_ok by auto. simpl.
  eexists. split; [reflexivity|]. simpl. split; [done|]. split.
  - unfold json_field, status_path. rewrite lookup_insert_eq. by apply Hd.
  - destruct (decide (job_dir_of (heap s !!! r) ++ "/status.json"
                      = job_dir_of (heap s !!! r) ++ "/_MANIFEST.json")) as [->|Hne].
    + rewrite lookup_insert_eq. eauto.
    + rewrite lookup_insert_ne by done. rewrite lookup_insert_eq. eauto.
Qed.

Lemma filter_alive_idem (l : list (option Z)) :
  filter (fun p : option Z => p = None) (filter (fun p : option Z => p = None) l)
  = filter (fun p : option Z => p = None) l.
Proof.
  induction l as [|p l IH]; [done|]. rewrite filter_cons.
  destruct (decide (p = None)) as [->|Hne]; [|done].
  rewrite filter_cons. rewrite decide_True by done. by rewrite IH.
Qed.

(** X22. [cleanup_completed_processes] keeps exactly the processes that
    are still running, does nothing when repeated, and does not change the
    answer of [can_add_parallel_process], which counts live processes
    only. *)
Theorem cleanup_completed_processes_keeps_live_ones
    (py_float : string -> option Q) (s : proc) :
  let s' := snd (cleanup_completed_processes s) in
  Forall (fun p => p = None) (active_processes s')
  /\ length (active_processes s')
     = length (filter (fun p : option Z => p = None) (active_processes s))
  /\ cleanup_completed_processes s' = (Ok tt, s')
  /\ fst (can_add_parallel_process py_float s') = fst (can_add_parallel_process py_float s).
Proof.
  intros s'. subst s'. unfold cleanup_completed_processes. run_monad.
  split; [|split; [done|split]].
  - apply Forall_forall. intros p Hp. by apply list_elem_of_filter in Hp as [-> _].
  - rewrite filter_alive_idem. by destruct s.
  - unfold can_add_parallel_process. run_monad.
    destruct (get_gpu_utilization_returns py_float s) as [v Hv].
    destruct (get_gpu_utilization_returns py_float
                (set_active_processes
                   (filter (fun p : option Z => p = None) (active_processes s)) s))
      as [v' Hv'].
    assert (v' = v).
    { unfold get_gpu_utilization in *. revert Hv Hv'. run_monad.
      destruct (nvidia_smi s) as [res|e]; [|congruence].
      destruct (returncode res =? 0); [|congruence].
      destruct (parse_utilizations py_float (stdout res)) as [[|u l]|]; congruence. }
    subst v'. rewrite Hv, Hv'. simpl. by rewrite filter_alive_idem.
Qed.

Lemma nvenc_flags_no_libx264 : ("libx264" ∉ nvenc_flags).
Proof.
  unfold nvenc_flags. rewrite !not_elem_of_cons. repeat split; try discriminate.
  apply not_elem_of_nil.
Qed.

(** X23. The command built by [run_ffmpeg_with_nvenc] never names
    [libx264]: each occurrence is replaced by [h264_nvenc] and its 22
    flag words, and the other arguments are kept, in order. *)
Theorem nvenc_cmd_replaces_every_libx264 (cmd : list string) :
  ("libx264" ∉ nvenc_cmd cmd)
  /\ length (nvenc_cmd cmd)
     = (length cmd + 22 * length (filter (fun arg => arg = "libx264") cmd))%nat
  /\ sublist (filter (fun arg => arg <> "libx264") cmd) (nvenc_cmd cmd).
Proof.
  induction cmd as [|arg rest (IH1 & IH2 & IH3)];
    [split; [apply not_elem_of_nil|split; [done|constructor]]|].
  cbn [nvenc_cmd]. rewrite !filter_cons.
  destruct (String.eqb arg "libx264") eqn:E.
  - apply String.eqb_eq in E as ->. rewrite decide_True by done.
    rewrite decide_False by tauto. split; [|split].
    + rewrite elem_of_app. intros [H|H]; [by apply nvenc_flags_no_libx264|done].
    + rewrite length_app, IH2. cbn [length nvenc_flags]. lia.
    + by apply sublist_inserts_l.
  - apply String.eqb_neq in E. rewrite decide_False by done.
    rewrite decide_True by done. split; [|split].
    + rewrite not_elem_of_cons. split; [congruence|done].
    + cbn [length]. rewrite IH2. lia.
    + by constructor.
Qed.


(** X24. When every number read from [nvidia-smi] is a percentage, so is
    the answer of the worker's [get_gpu_utilization], which never raises
    and leaves the process as it was. *)
Theorem worker_gpu_utilization_is_a_percentage
    (py_float : string -> option Q) (s : proc) :
  (forall text q, py_float text = Some q -> (0 <= q)%Q /\ (q <= 100)%Q) ->
  exists v, get_gpu_utilization py_float s = (Ok v, s) /\ (0 <= v)%Q /\ (v <= 100)%Q.
Proof.
  intros Hp. unfold get_gpu_utilization. run_monad.
  destruct (nvidia_smi s) as [res|e]; [|exists 0%Q; repeat split; lra].
  destruct (returncode res =? 0); [|exists 0%Q; repeat split; lra].
  destruct (parse_utilizations py_float (stdout res)) as [[|u l]|] eqn:E;
    try (exists 0%Q; repeat split; lra).
  eexists. split; [reflexivity|].
  apply average_bounds. by eapply parse_utilizations_bounds.
Qed.


(** ** Instances *)

Lemma scan_for_jobs_lists_pending_records_witness :
  faults (started "worker-a" 0 one_pending_job) = []
  /\ exists jobs s',
       scan_for_jobs (started "worker-a" 0 one_pending_job) = (Ok jobs, s')
       /\ Forall2 (fun r j => heap s' !! r = Some j) jobs
            (pending_jobs_of one_pending_job
               (list_names one_pending_job (JOBS_PREFIX ++ "/")))
       /\ faults s' = [].
Proof.
  split; [reflexivity|].
  exact (scan_for_jobs_lists_pending_records (started "worker-a" 0 one_pending_job)
           eq_refl).
Defined.

Lemma claim_job_failed_status_upload_orphans_lease_witness :
  faults (set_faults [false; true] (scanned "worker-a" 0 one_pending_job))
  = [false; true]
  /\ fst (claim_job 0%nat
            (set_faults [false; true] (scanned "worker-a" 0 one_pending_job)))
     = Ok false.
Proof.
  split; [reflexivity|].
  destruct (claim_job_failed_status_upload_orphans_lease
              (set_faults [false; true] (scanned "worker-a" 0 one_pending_job))
              0%nat [] eq_refl ltac:(vm_compute; reflexivity))
    as (s' & E & _).
  rewrite E. reflexivity.
Defined.

Lemma renew_lease_overwrites_any_lease_witness :
  current_job holder = Some 0%nat
  /\ lease_expiry (heap holder !!! 0%nat) = Some (timedelta_seconds 120)
  /\ fst (renew_lease holder) = Ok true.
Proof.
  split; [reflexivity|]. split; [vm_compute; reflexivity|].
  destruct (renew_lease_overwrites_any_lease holder 0%nat (timedelta_seconds 120)
              eq_refl eq_refl ltac:(vm_compute; reflexivity))
    as (s' & E & _).
  rewrite E. reflexivity.
Defined.

Lemma failed_renewal_releases_nothing_witness :
  faults (set_faults [true] holder) = [true]
  /\ fst (renew_lease (set_faults [true] holder)) = Ok false
  /\ current_job (snd (renewal_turn (set_faults [true] holder))) = Some 0%nat
  /\ gcs (snd (renewal_turn (set_faults [true] holder))) = gcs holder.
Proof.
  split; [reflexivity|].
  destruct (failed_renewal_releases_nothing (set_faults [true] holder)
              0%nat (timedelta_seconds 120) []
              eq_refl eq_refl ltac:(vm_compute; reflexivity))
    as (E1 & E2).
  split; [exact E1|]. rewrite E2. split; vm_compute; reflexivity.
Defined.

Lemma released_job_cannot_be_claimed_witness :
  gcs (scanned "worker-a" 0 one_pending_job) !! "jobs/news/j1/lease.lock" = None
  /\ fst (claim_job 0%nat (scanned "worker-a" 0 one_pending_job)) = Ok true
  /\ fst (claim_job 0%nat
            (set_gcs (gcs (snd (release_job holder)))
               (scanned "worker-b" 5 one_pending_job)))
     = Ok false.
Proof.
  split; [reflexivity|].
  destruct (released_job_cannot_be_claimed (scanned "worker-a" 0 one_pending_job) 0%nat
              (scanned "worker-b" 5 one_pending_job) 0%nat
              eq_refl ltac:(vm_compute; reflexivity) eq_refl
              ltac:(vm_compute; reflexivity) ltac:(vm_compute; reflexivity))
    as (E1 & _ & E2).
  split; [exact E1|]. unfold holder. rewrite E2. reflexivity.
Defined.



Lemma as_built_worker_never_renders_witness :
  has_bucket (started "worker-a" 0 one_pending_job) = false
  /\ rendered (snd (run decimal_float 3 (started "worker-a" 0 one_pending_job))) = [].
Proof.
  split; [reflexivity|].
  exact (proj1 (as_built_worker_never_renders decimal_float 3
                  (started "worker-a" 0 one_pending_job) eq_refl)).
Defined.

Lemma render_video_job_marks_unreadable_config_failed_witness :
  config_error
    (gcs (claimed_with_handles job_without_config) !! "jobs/news/j1/config.json")
  = Some NotFound
  /\ fst (render_video_job decimal_float 0%nat (claimed_with_handles job_without_config))
     = Ok false.
Proof.
  split; [vm_compute; reflexivity|].
  destruct (render_video_job_marks_unreadable_config_failed decimal_float
              (claimed_with_handles job_without_config) 0%nat NotFound
              ltac:(vm_compute; reflexivity) ltac:(vm_compute; reflexivity)
              ltac:(vm_compute; reflexivity))
    as (s' & E & _).
  rewrite E. reflexivity.
Defined.

Lemma render_video_job_interrupted_changes_nothing_witness :
  shutdown_event (set_shutdown_event true (claimed_with_handles one_pending_job)) = true
  /\ render_video_job decimal_float 0%nat
       (set_shutdown_event true (claimed_with_handles one_pending_job))
     = (Ok false, set_shutdown_event true (claimed_with_handles one_pending_job)).
Proof.
  split; [reflexivity|].
  apply (render_video_job_interrupted_changes_nothing decimal_float
           (set_shutdown_event true (claimed_with_handles one_pending_job)) 0%nat
           (<["total_questions" := JInt 3]> ∅) 3);
    first [ lia | vm_compute; reflexivity ].
Defined.

Lemma render_video_job_without_units_completes_witness :
  has_bucket (claimed_with_handles job_without_units) = true
  /\ fst (render_video_job decimal_float 0%nat (claimed_with_handles job_without_units))
     = Ok true.
Proof.
  split; [reflexivity|].
  destruct (render_video_job_without_units_completes decimal_float
              (claimed_with_handles job_without_units) 0%nat
              (<["total_questions" := JInt 0]> ∅) 0
              ltac:(vm_compute; reflexivity) ltac:(vm_compute; reflexivity)
              ltac:(vm_compute; reflexivity) ltac:(vm_compute; reflexivity)
              ltac:(vm_compute; reflexivity) ltac:(lia))
    as (s' & E & _).
  rewrite E. reflexivity.
Defined.

Lemma worker_gpu_utilization_is_a_percentage_witness :
  exists v,
    get_gpu_utilization percent_float (started "worker-a" 0 one_pending_job)
    = (Ok v, started "worker-a" 0 one_pending_job)
    /\ (0 <= v)%Q /\ (v <= 100)%Q.
Proof.
  exact (worker_gpu_utilization_is_a_percentage percent_float
           (started "worker-a" 0 one_pending_job) percent_float_bounds).
Defined.


End MoreWorkerProperties.
